(** * GameTool: coordinate scaling and action dispatch

    A shallow embedding of [computer_use_demo/tools/game.py]: the
    coordinate mapper [scale_coordinates], the advertised [options], the
    helper [chunks] and the dispatcher [__call__], followed by the
    properties of the design document that concern them.

    Python integers are [Z].  Python floats are IEEE-754 binary64 values:
    a finite float is the rational it denotes, and every arithmetic
    operation rounds the exact result to the nearest representable value,
    ties to even.  Strings are sequences of code points below 256.
    Printing an int of more than 4300 digits raises [ValueError], as
    the interpreter does by default. *)

From Stdlib Require Import ZArith QArith Qabs Qround Qpower Qreduction.
From Stdlib Require Import Lia Lqa List String Ascii Bool.
From Stdlib Require Floats.SpecFloat.
Import ListNotations.

Set Warnings "-register-all".

(** ** IEEE-754 binary64, as Python's [float] *)

Module Binary64.

Local Open Scope Q_scope.

Definition prec : Z := 53.
Definition emax : Z := 1024.
(** Exponent of the smallest positive subnormal, 2^-1074. *)
Definition emin : Z := (3 - emax - prec)%Z.

Definition pow2 (e : Z) : Q := Qpower 2 e.

(** [ilog2 q] is the floor of the binary logarithm of [|q|], for a
    non-zero [q]: the quotient of the bit lengths is off by at most
    one, and a comparison settles it. *)
Definition ilog2 (q : Q) : Z :=
  let k := (Z.log2 (Z.abs (Qnum q)) - Z.log2 (Zpos (Qden q)))%Z in
  if Qle_bool (pow2 k) (Qabs q) then k else (k - 1)%Z.

(** Exponent of the unit in the last place of the binade of [q]:
    53 significant bits, but never below [emin] (gradual underflow). *)
Definition fexp (q : Q) : Z := Z.max (ilog2 q - (prec - 1)) emin.

(** Nearest integer, ties to the even one. *)
Definition rne (q : Q) : Z :=
  let f := Qfloor q in
  match Qcompare (q - inject_Z f) (1 # 2) with
  | Lt => f
  | Gt => (f + 1)%Z
  | Eq => if Z.even f then f else (f + 1)%Z
  end.

(** Rounding of an exact result to the binary64 grid, with the exponent
    unbounded above; overflow is decided on the rounded value. *)
Definition round (q : Q) : Q :=
  let e := fexp q in Qred (inject_Z (rne (q / pow2 e)) * pow2 e).

Inductive float : Type :=
| Finite (q : Q)
| Infinity (negative : bool)
| NaN.

Definition is_neg (q : Q) : bool := negb (Qle_bool 0 q).

(** The float an exact rational result is delivered as. *)
Definition of_exact (q : Q) : float :=
  let r := round q in
  if Qle_bool (pow2 emax) (Qabs r) then Infinity (is_neg r) else Finite r.

Definition is_zero (q : Q) : bool := Qeq_bool q 0.

Definition sub (a b : float) : float :=
  match a, b with
  | NaN, _ | _, NaN => NaN
  | Infinity sa, Infinity sb => if Bool.eqb sa sb then NaN else a
  | Infinity _, Finite _ => a
  | Finite _, Infinity sb => Infinity (negb sb)
  | Finite x, Finite y => of_exact (x - y)
  end.

Definition mul (a b : float) : float :=
  match a, b with
  | NaN, _ | _, NaN => NaN
  | Infinity sa, Infinity sb => Infinity (xorb sa sb)
  | Infinity sa, Finite y =>
      if is_zero y then NaN else Infinity (xorb sa (is_neg y))
  | Finite x, Infinity sb =>
      if is_zero x then NaN else Infinity (xorb (is_neg x) sb)
  | Finite x, Finite y => of_exact (x * y)
  end.

(** Division by a non-zero float; Python tests the divisor for zero
    before dividing. *)
Definition div (a b : float) : float :=
  match a, b with
  | NaN, _ | _, NaN => NaN
  | Infinity _, Infinity _ => NaN
  | Infinity sa, Finite y => Infinity (xorb sa (is_neg y))
  | Finite _, Infinity _ => Finite 0
  | Finite x, Finite y => of_exact (x / y)
  end.

Definition abs (a : float) : float :=
  match a with
  | Finite x => Finite (Qabs x)
  | Infinity _ => Infinity false
  | NaN => NaN
  end.

Definition ltb (a b : float) : bool :=
  match a, b with
  | NaN, _ | _, NaN => false
  | Infinity sa, Infinity sb => sa && negb sb
  | Infinity sa, Finite _ => sa
  | Finite _, Infinity sb => negb sb
  | Finite x, Finite y => negb (Qle_bool y x)
  end.

(** The value of a decimal literal of the source. *)
Definition literal (q : Q) : float := of_exact q.

(** Unit roundoff 2^-53, and a bound on half the smallest subnormal,
    as literals for linear arithmetic. *)
Definition u : Q := 1 # 9007199254740992.
Definition eta : Q := 1 # 1000000000000000000000000000000.

End Binary64.

(** ** Agreement with the standard library's IEEE-754 specification

    [SpecFloat] gives the operations of binary64 on mantissa and exponent
    pairs.  The definitions below run both on the same inputs. *)

Module Binary64Check.

Import Binary64.
Local Open Scope Q_scope.

Definition of_spec (f : SpecFloat.spec_float) : float :=
  match f with
  | SpecFloat.S754_zero _ => Finite 0
  | SpecFloat.S754_finite s m e =>
      Finite (Qred ((if s then -1 else 1) * inject_Z (Zpos m) * pow2 e))
  | SpecFloat.S754_infinity s => Infinity s
  | SpecFloat.S754_nan => NaN
  end.

Definition spec_of_Z (n : Z) : SpecFloat.spec_float :=
  SpecFloat.binary_normalize prec emax n 0 false.

Definition float_eqb (a b : float) : bool :=
  match a, b with
  | Finite x, Finite y => Qeq_bool x y
  | Infinity s, Infinity s' => Bool.eqb s s'
  | NaN, NaN => true
  | _, _ => false
  end.

(** Pairs [(a, b)] of integers with [b <> 0]: screen sizes, table
    entries, subnormal and overflowing quotients, ties. *)
Definition samples : list (Z * Z) :=
  [ (1366, 1920); (768, 1080); (1024, 768); (1280, 800); (1366, 768);
    (1, 3); (2, 100); (12, 1000); (960, 1); (1, 2 ^ 1074); (3, 2 ^ 1075);
    (1, 2 ^ 1075); (2 ^ 53 + 1, 1); (2 ^ 53 + 3, 7); (2 ^ 62, 3 * 2 ^ 60);
    (1024, 2 ^ 62); (2 ^ 1023, 1); (2 ^ 1024 - 2 ^ 970, 1);
    (2 ^ 1024 - 2 ^ 970 - 1, 1); (-7, 3); (5, -1000001) ]%Z.

Definition spec_quotient (a b : Z) : SpecFloat.spec_float :=
  SpecFloat.SFdiv prec emax (spec_of_Z a) (spec_of_Z b).

Definition quotient (a b : Z) : float :=
  div (of_exact (inject_Z a)) (of_exact (inject_Z b)).

Definition agree_of_int (ab : Z * Z) : bool :=
  float_eqb (of_spec (spec_of_Z (fst ab))) (of_exact (inject_Z (fst ab))).

Definition agree_div (ab : Z * Z) : bool :=
  float_eqb (of_spec (spec_quotient (fst ab) (snd ab)))
            (quotient (fst ab) (snd ab)).

Definition agree_mul (ab : Z * Z) : bool :=
  float_eqb
    (of_spec (SpecFloat.SFmul prec emax (spec_of_Z (fst ab))
                (spec_quotient 1 (snd ab))))
    (mul (of_exact (inject_Z (fst ab))) (quotient 1 (snd ab))).

Definition agree_sub (ab : Z * Z) : bool :=
  float_eqb
    (of_spec (SpecFloat.SFsub prec emax (spec_quotient (snd ab) (fst ab))
                (spec_quotient 1 (snd ab))))
    (sub (quotient (snd ab) (fst ab)) (quotient 1 (snd ab))).

End Binary64Check.


(** ** Python values, exceptions and arithmetic *)

Module Py.

Import Binary64.

(** The values a caller can pass for [coordinate]. *)
Inductive value : Type :=
| None_
| Bool (b : bool)
| Int (n : Z)
| Float (f : float)
| Str (s : string)
| List (items : list value)
| Tuple (items : list value).

(** The [ToolError] messages of the source, one constructor per
    f-string template, with the values that fill it. *)
Inductive tool_error : Type :=
| coordinate_is_required_for (action : string)
| text_is_not_accepted_for (action : string)
| must_be_a_tuple_of_length_2 (coordinate : value)
| must_be_a_tuple_of_non_negative_ints (coordinate : value)
| text_is_required_for (action : string)
| coordinate_is_not_accepted_for (action : string)
| Invalid_action (action : string)
| Failed_to_take_screenshot (error : string)
| Coordinates_are_out_of_bounds (x y : value).

Inductive exn : Type :=
| ToolError (message : tool_error)
| ZeroDivisionError
| OverflowError
| ValueError.

Inductive result (A : Type) : Type :=
| Ok (a : A)
| Raise (e : exn).
Arguments Ok {A} a.
Arguments Raise {A} e.

Definition bind {A B} (c : result A) (k : A -> result B) : result B :=
  match c with
  | Ok a => k a
  | Raise e => Raise e
  end.

(** [float(n)] for an int: correctly rounded, [OverflowError] when the
    rounded value is out of range. *)
Definition float_of_int (n : Z) : result float :=
  match of_exact (inject_Z n) with
  | Finite q => Ok (Finite q)
  | _ => Raise OverflowError
  end.

(** [a / b] on two ints: the correctly rounded quotient. *)
Definition int_truediv (a b : Z) : result float :=
  if (b =? 0)%Z then Raise ZeroDivisionError
  else match of_exact (inject_Z a / inject_Z b) with
       | Finite q => Ok (Finite q)
       | _ => Raise OverflowError
       end.

Definition float_is_zero (f : float) : bool :=
  match f with
  | Finite q => is_zero q
  | _ => false
  end.

(** [n / f] with an int on the left: [n] is converted first, then the
    divisor is tested. *)
Definition int_div_float (n : Z) (f : float) : result float :=
  bind (float_of_int n) (fun a =>
  if float_is_zero f then Raise ZeroDivisionError else Ok (div a f)).

(** [n * f] with an int on the left. *)
Definition int_mul_float (n : Z) (f : float) : result float :=
  bind (float_of_int n) (fun a => Ok (mul a f)).

(** [round(f)] with no digits argument: an int, ties to even. *)
Definition round (f : float) : result Z :=
  match f with
  | Finite q => Ok (rne q)
  | Infinity _ => Raise OverflowError
  | NaN => Raise ValueError
  end.

(** [isinstance(v, int)]; [bool] is a subclass of [int]. *)
Definition isinstance_int (v : value) : bool :=
  match v with
  | Int _ | Bool _ => true
  | _ => false
  end.

(** The integer an int (or bool) denotes in arithmetic and comparisons. *)
Definition int_value (v : value) : Z :=
  match v with
  | Int n => n
  | Bool b => if b then 1 else 0
  | _ => 0
  end.

(** *** Formatting

    Converting an int to its decimal text raises [ValueError] when the
    int has more digits than [sys.get_int_max_str_digits()], which the
    source leaves at the interpreter's default. *)
Definition INT_MAX_STR_DIGITS : Z := 4300.

(** [str(n)] for an int proper: whether the conversion returns; the
    text is determined by [n]. *)
Definition str_int (n : Z) : result unit :=
  if (Z.abs n <? 10 ^ INT_MAX_STR_DIGITS)%Z then Ok tt else Raise ValueError.

(** [{v}] in an f-string.  A list or a tuple converts its items in
    order; a bool prints as True or False and a float, a string and
    None always convert. *)
Fixpoint format (v : value) : result unit :=
  match v with
  | Int n => str_int n
  | List items | Tuple items =>
      (fix each (rest : list value) : result unit :=
         match rest with
         | [] => Ok tt
         | item :: rest => bind (format item) (fun _ => each rest)
         end) items
  | _ => Ok tt
  end.

(** *** Strings *)

(** [str.lower] on one code point below 256: A-Z, and the Latin-1
    capitals U+00C0-U+00DE without the multiplication sign U+00D7. *)
Definition lower_char (c : ascii) : ascii :=
  let n := nat_of_ascii c in
  if ((65 <=? n) && (n <=? 90) ||
      (192 <=? n) && (n <=? 222) && negb (n =? 215))%nat
  then ascii_of_nat (n + 32) else c.

Fixpoint lower (s : string) : string :=
  match s with
  | EmptyString => EmptyString
  | String c rest => String (lower_char c) (lower rest)
  end.

(** [needle in hay] on two strings: [needle] occurs as a contiguous
    substring. *)
Fixpoint str_in (needle hay : string) : bool :=
  prefix needle hay ||
  match hay with
  | EmptyString => false
  | String _ rest => str_in needle rest
  end.

(** [s in (t1, t2, ...)]: membership in a tuple of strings. *)
Definition in_tuple (s : string) (items : list string) : bool :=
  existsb (String.eqb s) items.

(** [s.split(sep)[0]]: the part before the first separator. *)
Fixpoint split_first (sep : ascii) (s : string) : string :=
  match s with
  | EmptyString => EmptyString
  | String c rest =>
      if Ascii.eqb c sep then EmptyString else String c (split_first sep rest)
  end.

(** [s.split(sep)[-1]]: the part after the last separator; [acc] is the
    piece read since the last separator seen. *)
Fixpoint split_last_from (sep : ascii) (acc s : string) : string :=
  match s with
  | EmptyString => acc
  | String c rest =>
      if Ascii.eqb c sep then split_last_from sep EmptyString rest
      else split_last_from sep (acc ++ String c EmptyString) rest
  end.

Definition split_last (sep : ascii) (s : string) : string :=
  split_last_from sep EmptyString s.

(** [range(0, stop, step)] for a positive step. *)
Definition range0 (stop step : nat) : list nat :=
  map (fun k => k * step)%nat (seq 0 ((stop + step - 1) / step)).

End Py.

(** ** The tool *)

Module Game.

Import Binary64 Py.
Local Open Scope string_scope.
Local Open Scope Z_scope.

Definition TYPING_DELAY_MS : Z := 12.
Definition TYPING_GROUP_SIZE : nat := 50.

Record Resolution : Type := { width : Z; height : Z }.

(** The dict keeps insertion order; the scan below walks its values. *)
Definition MAX_SCALING_TARGETS : list (string * Resolution) :=
  [ ("XGA",   {| width := 1024; height := 768 |});
    ("WXGA",  {| width := 1280; height := 800 |});
    ("FWXGA", {| width := 1366; height := 768 |}) ].

Inductive ScalingSource : Type := COMPUTER | API.

Record ComputerToolOptions : Type :=
  { display_height_px : Z;
    display_width_px : Z;
    display_number : option Z }.

(** The instance attributes read by the methods below; [__init__] takes
    them from WIDTH, HEIGHT and DISPLAY_NUM and refuses a zero width or
    height.  It reads them with [int], which accepts no more digits
    than [str] prints, so that printing them in a shell command does
    not fail. *)
Record GameTool : Type :=
  { self_width : Z;
    self_height : Z;
    display_num : option Z;
    _scaling_enabled : bool }.

(** [chunks(s, chunk_size)]; a zero step makes [range] raise. *)
Definition chunks (s : string) (chunk_size : nat) : result (list string) :=
  match chunk_size with
  | O => Raise ValueError
  | _ => Ok (map (fun i => substring i chunk_size s)
                 (range0 (String.length s) chunk_size))
  end.

(** The [for dimension in MAX_SCALING_TARGETS.values()] loop of
    [scale_coordinates]: the first entry whose aspect ratio is close to
    [ratio] ends the scan, and is the target only if it is narrower
    than the configured width. *)
Fixpoint scan_targets (ratio : float) (self_w : Z)
         (dimensions : list Resolution) : result (option Resolution) :=
  match dimensions with
  | [] => Ok None
  | dimension :: rest =>
      bind (int_truediv (width dimension) (height dimension)) (fun r =>
      if ltb (abs (sub r ratio)) (literal (2 # 100))
      then Ok (if width dimension <? self_w then Some dimension else None)
      else scan_targets ratio self_w rest)
  end.

(** The target of a tool with scaling enabled. *)
Definition target_dimension (self : GameTool) : result (option Resolution) :=
  bind (int_truediv (self_width self) (self_height self)) (fun ratio =>
  scan_targets ratio (self_width self) (map snd MAX_SCALING_TARGETS)).

(** [scale_coordinates].  Its arguments are int objects: ints proper,
    or bools, which are ints of value 0 and 1 ([bool] is a subclass of
    [int]) that print as False and True.  The function compares and
    divides them as ints, prints them in the bounds error, and returns
    the objects themselves when nothing is scaled.  [A] is how the
    objects are given: [int_of] is the int an object denotes, [object]
    the object as a value, [of_int] an int proper. *)
Section IntObjects.

Context {A : Type}.
Variable int_of : A -> Z.
Variable object : A -> value.
Variable of_int : Z -> A.

Definition scale_coordinates_on (self : GameTool) (source : ScalingSource)
           (x y : A) : result (A * A) :=
  if negb (_scaling_enabled self) then Ok (x, y) else
  bind (target_dimension self) (fun target =>
  match target with
  | None => Ok (x, y)
  | Some target =>
      bind (int_truediv (width target) (self_width self))
        (fun x_scaling_factor =>
      bind (int_truediv (height target) (self_height self))
        (fun y_scaling_factor =>
      match source with
      | API =>
          if (int_of x >? self_width self) || (int_of y >? self_height self)
          then
            (* the message is formatted, then raised *)
            bind (format (object x)) (fun _ =>
            bind (format (object y)) (fun _ =>
            Raise (ToolError
                     (Coordinates_are_out_of_bounds (object x) (object y)))))
          else
            (* scale up *)
            bind (bind (int_div_float (int_of x) x_scaling_factor) round)
              (fun x' =>
            bind (bind (int_div_float (int_of y) y_scaling_factor) round)
              (fun y' =>
            Ok (of_int x', of_int y')))
      | COMPUTER =>
          (* scale down *)
          bind (bind (int_mul_float (int_of x) x_scaling_factor) round)
            (fun x' =>
          bind (bind (int_mul_float (int_of y) y_scaling_factor) round)
            (fun y' =>
          Ok (of_int x', of_int y')))
      end))
  end).

End IntObjects.

(** [scale_coordinates] on ints proper, as its signature announces. *)
Definition scale_coordinates (self : GameTool) (source : ScalingSource)
           (x y : Z) : result (Z * Z) :=
  scale_coordinates_on (fun n => n) Int (fun n => n) self source x y.

(** [scale_coordinates] on the components of a [coordinate], which
    [__call__] passes as they are once they are known to be ints or
    bools. *)
Definition scale_coordinates_of_values (self : GameTool)
           (source : ScalingSource) (x y : value) : result (value * value) :=
  scale_coordinates_on int_value (fun v => v) Int self source x y.

Definition options (self : GameTool) : result ComputerToolOptions :=
  bind (scale_coordinates self COMPUTER (self_width self) (self_height self))
    (fun '(w, h) =>
  Ok {| display_width_px := w;
        display_height_px := h;
        display_number := display_num self |}).

(** *** Side effects

    What the tool does to the machine is the sequence of calls it makes
    to pyautogui and to the shell; what the machine answers is read
    from a [world]. *)

Inductive shell_command : Type :=
| convert_resize (w h : Z)
| screencapture (display : option Z).

Inductive event : Type :=
| moveTo (x y : value)
| dragTo (x y : value)
| keyDown (key : string)
| keyUp (key : string)
| sleep (seconds : Z)
| press (key : string)
| write (message : string) (interval : float)
| click
| rightClick
| middleClick
| doubleClick
| mouseDown
| mouseUp
| run (command : shell_command).

Record world : Type :=
  { position : Z * Z;                (* pyautogui.position() *)
    capture_stdout : string;         (* of the screencapture command *)
    capture_stderr : string;
    screenshot_file : option string  (* base64 of the file, if it exists *) }.

(** The [output] texts of the source, one constructor per template;
    [stdout] is the output of a shell command. *)
Inductive message : Type :=
| Moved_mouse_to (x y : value)
| Dragged_mouse_to (x y : value)
| Pressed_key (text : string)
| Typed (text : string)
| X_Y (x y : Z)
| Performed (action : string)
| stdout (s : string).

Record ToolResult : Type :=
  { output : option message;
    error : option string;
    base64_image : option string }.

(** A computation appends to the trace of events and returns or raises;
    the events made before an exception stay in the trace. *)
Definition M (A : Type) : Type := list event -> result A * list event.

Definition ret {A} (a : A) : M A := fun t => (Ok a, t).
Definition raise {A} (e : exn) : M A := fun t => (Raise e, t).
Definition emit (e : event) : M unit := fun t => (Ok tt, (t ++ [e])%list).
Definition lift {A} (r : result A) : M A := fun t => (r, t).
Definition mbind {A B} (c : M A) (k : A -> M B) : M B :=
  fun t => match c t with
           | (Ok a, t') => k a t'
           | (Raise e, t') => (Raise e, t')
           end.

Declare Scope game_scope.
Delimit Scope game_scope with game.
Notation "x <- c ;; k" := (mbind c (fun x => k))
  (at level 61, c at next level, right associativity) : game_scope.
Notation "c ;; k" := (mbind c (fun _ => k))
  (at level 61, right associativity) : game_scope.
Local Open Scope game_scope.

Fixpoint for_each {A} (items : list A) (body : A -> M unit) : M unit :=
  match items with
  | [] => ret tt
  | a :: rest => body a ;; for_each rest body
  end.

(** [shell] with [take_screenshot=False], the only way it is called;
    [out] and [err] are what the command printed. *)
Definition shell (command : shell_command) (out err : string)
  : M ToolResult :=
  emit (run command) ;;
  ret {| output := Some (stdout out); error := Some err;
         base64_image := None |}.

Definition screenshot (self : GameTool) (w : world) : M ToolResult :=
  (* resize the screenshot to default width and height *)
  shell (convert_resize (self_width self) (self_height self)) "" "" ;;
  result <- shell (screencapture (display_num self))
                  (capture_stdout w) (capture_stderr w) ;;
  (if _scaling_enabled self then
     xy <- lift (scale_coordinates self COMPUTER
                   (self_width self) (self_height self)) ;;
     shell (convert_resize (fst xy) (snd xy)) "" "" ;;
     ret tt
   else ret tt) ;;
  match screenshot_file w with
  | Some png =>
      ret {| output := output result; error := error result;
             base64_image := Some png |}
  | None =>
      raise (ToolError (Failed_to_take_screenshot
                          (match error result with Some e => e | None => "" end)))
  end.

Definition result_of (m : message) : ToolResult :=
  {| output := Some m; error := None; base64_image := None |}.

Definition action_in (action : string) (names : list string) : bool :=
  in_tuple action names.

(** [GameTool.__call__]; [text] is a [str] or [None], so the
    [isinstance(text, str)] test of the source always passes.  A
    message that prints a coordinate or a pair of ints is formatted
    before it is raised or returned, and after the pyautogui call that
    precedes it in the source; the messages that print only [action] or
    [text], which are strings, always format. *)
Definition call (self : GameTool) (w : world) (action : string)
           (text : option string) (coordinate : value)
  : M ToolResult :=
  if action_in action ["mouse_move"; "left_click_drag"] then
    match coordinate, text with
    | None_, _ => raise (ToolError (coordinate_is_required_for action))
    | _, Some _ => raise (ToolError (text_is_not_accepted_for action))
    | List [c0; c1], None =>
        if negb (forallb (fun i => isinstance_int i && (int_value i >=? 0))
                         [c0; c1])
        then
          lift (format coordinate) ;;
          raise (ToolError (must_be_a_tuple_of_non_negative_ints coordinate))
        else
          xy <- lift (scale_coordinates_of_values self API c0 c1) ;;
          if String.eqb action "mouse_move" then
            emit (moveTo (fst xy) (snd xy)) ;;
            lift (format (fst xy)) ;; lift (format (snd xy)) ;;
            ret (result_of (Moved_mouse_to (fst xy) (snd xy)))
          else (* action == "left_click_drag" *)
            emit (dragTo (fst xy) (snd xy)) ;;
            lift (format (fst xy)) ;; lift (format (snd xy)) ;;
            ret (result_of (Dragged_mouse_to (fst xy) (snd xy)))
    | _, None =>
        lift (format coordinate) ;;
        raise (ToolError (must_be_a_tuple_of_length_2 coordinate))
    end
  else if action_in action ["key"; "type"] then
    match text, coordinate with
    | None, _ => raise (ToolError (text_is_required_for action))
    | Some text, None_ =>
        if String.eqb action "key" then
          (if str_in (lower text) "wasd" then
             emit (keyDown (lower text)) ;;
             emit (sleep 1) ;;
             emit (keyUp (lower text))
           else if str_in (lower text) "abcdefghijklmnopqrstuvwxyz" then
             emit (press (lower text))
           else if str_in text "1234567890" then
             emit (press text)
           else if String.eqb (lower text) "return" then
             emit (press "enter")
           else if in_tuple (lower text)
                     ["right-arrow"; "right"; "left-arrow"; "left";
                      "up-arrow"; "up"; "down-arrow"; "down"] then
             emit (press (lower (split_first "-" text)))
           else
             emit (press (lower text))) ;;
          ret (result_of (Pressed_key text))
        else (* action == "type" *)
          pieces <- lift (chunks text TYPING_GROUP_SIZE) ;;
          for_each pieces (fun chunk =>
            interval <- lift (int_truediv TYPING_DELAY_MS 1000) ;;
            emit (write chunk interval)) ;;
          shot <- screenshot self w ;;
          ret {| output := Some (Typed text); error := None;
                 base64_image := base64_image shot |}
    | Some _, _ => raise (ToolError (coordinate_is_not_accepted_for action))
    end
  else if action_in action ["left_click"; "right_click"; "double_click";
                            "middle_click"; "screenshot"; "cursor_position"] then
    match text, coordinate with
    | Some _, _ => raise (ToolError (text_is_not_accepted_for action))
    | None, None_ =>
        if String.eqb action "screenshot" then screenshot self w
        else if String.eqb action "cursor_position" then
          xy <- lift (scale_coordinates self COMPUTER
                        (fst (position w)) (snd (position w))) ;;
          lift (str_int (fst xy)) ;; lift (str_int (snd xy)) ;;
          ret (result_of (X_Y (fst xy) (snd xy)))
        else
          (* click_map[action]() *)
          (if String.eqb action "left_click" then emit click
           else if String.eqb action "right_click" then emit rightClick
           else if String.eqb action "middle_click" then emit middleClick
           else emit doubleClick) ;;
          ret (result_of (Performed action))
    | None, _ => raise (ToolError (coordinate_is_not_accepted_for action))
    end
  else
    (* minecraft *)
    (if String.eqb action "left_down" then emit mouseDown
     else if String.eqb action "left_up" then emit mouseUp
     else if prefix "hold_arrow_" action then
       emit (keyDown (split_last "_" action))
     else if prefix "release_arrow_" action then
       emit (keyUp (split_last "_" action))
     else raise (ToolError (Invalid_action action))) ;;
    ret (result_of (Performed action)).

End Game.


(** ** Vocabulary of the properties, and the inputs of the examples *)

Module Spec.

Import Binary64 Py Game.
Local Open Scope string_scope.
Local Open Scope Z_scope.

(** A scaling target is selected: scaling is on and the scan returns
    an entry. *)
Definition selected (self : GameTool) (t : Resolution) : Prop :=
  _scaling_enabled self = true /\ target_dimension self = Ok (Some t).

(** The test that ends the scan: the entry's float ratio is within the
    float 0.02 of the configured one. *)
Definition aspect_matches (ratio : float) (d : Resolution) : bool :=
  match int_truediv (width d) (height d) with
  | Ok r => ltb (abs (sub r ratio)) (literal (2 # 100))
  | Raise _ => false
  end.

Definition ratio_defined (d : Resolution) : Prop :=
  exists r, int_truediv (width d) (height d) = Ok r.

(** A coordinate component the validation accepts: an int (or bool)
    that is not negative. *)
Definition component_ok (c : value) : Prop :=
  isinstance_int c = true /\ 0 <= int_value c.

(** An int that [str] prints: of at most 4300 digits. *)
Definition printable (n : Z) : Prop := Z.abs n < 10 ^ INT_MAX_STR_DIGITS.

(** The ints inside a value, in the order they are printed. *)
Fixpoint ints_of (v : value) : list Z :=
  match v with
  | Int n => [n]
  | List items | Tuple items =>
      (fix each (rest : list value) : list Z :=
         match rest with
         | [] => []
         | item :: rest => (ints_of item ++ each rest)%list
         end) items
  | _ => []
  end.

(** A value prints when every int inside it does. *)
Definition prints (v : value) : Prop := Forall printable (ints_of v).

Section ValueInduction.

Variable P : value -> Prop.
Hypothesis P_None : P None_.
Hypothesis P_Bool : forall b, P (Bool b).
Hypothesis P_Int : forall n, P (Int n).
Hypothesis P_Float : forall f, P (Float f).
Hypothesis P_Str : forall s, P (Str s).
Hypothesis P_List : forall items, Forall P items -> P (List items).
Hypothesis P_Tuple : forall items, Forall P items -> P (Tuple items).

Fixpoint value_induction (v : value) : P v :=
  match v with
  | None_ => P_None
  | Bool b => P_Bool b
  | Int n => P_Int n
  | Float f => P_Float f
  | Str s => P_Str s
  | List items =>
      P_List items
        ((fix each (rest : list value) : Forall P rest :=
            match rest with
            | [] => Forall_nil P
            | item :: rest => Forall_cons item (value_induction item) (each rest)
            end) items)
  | Tuple items =>
      P_Tuple items
        ((fix each (rest : list value) : Forall P rest :=
            match rest with
            | [] => Forall_nil P
            | item :: rest => Forall_cons item (value_induction item) (each rest)
            end) items)
  end.

End ValueInduction.

(** The result that carries the message [m], once the two objects it
    prints are formatted. *)
Definition formatted (x y : value) (m : message) : result ToolResult :=
  bind (format x) (fun _ => bind (format y) (fun _ => Ok (result_of m))).

(** The ten game-control actions. *)
Definition game_control_actions : list string :=
  [ "left_down"; "left_up";
    "hold_arrow_up"; "hold_arrow_down"; "hold_arrow_left"; "hold_arrow_right";
    "release_arrow_up"; "release_arrow_down"; "release_arrow_left";
    "release_arrow_right" ].

(** Concatenation of a list of strings. *)
Definition join (pieces : list string) : string :=
  fold_right append "" pieces.

(** The float [TYPING_DELAY_MS / 1000]: the double nearest to 0.012. *)
Definition typing_interval : float :=
  Finite (3458764513820541 # 288230376151711744).

Definition xga : Resolution := {| width := 1024; height := 768 |}.
Definition wxga : Resolution := {| width := 1280; height := 800 |}.
Definition fwxga : Resolution := {| width := 1366; height := 768 |}.

(** A full-HD display, scaled to FWXGA. *)
Definition hd1080 : GameTool :=
  {| self_width := 1920; self_height := 1080;
     display_num := Some 1; _scaling_enabled := true |}.

(** The same display with scaling switched off. *)
Definition hd1080_unscaled : GameTool :=
  {| self_width := 1920; self_height := 1080;
     display_num := Some 1; _scaling_enabled := false |}.

(** A display of exactly the XGA size: the ratio matches, the width is
    not larger. *)
Definition xga_display : GameTool :=
  {| self_width := 1024; self_height := 768;
     display_num := None; _scaling_enabled := true |}.

(** A 4:3 configuration of 2^62 by 3 * 2^60: its coordinates exceed the
    53 bits of a float's significand. *)
Definition wide62 : GameTool :=
  {| self_width := 2 ^ 62; self_height := 3 * 2 ^ 60;
     display_num := None; _scaling_enabled := true |}.

(** A 4:3 configuration of 2^1102 by 3 * 2^1100: the width exceeds the
    largest float, and 1024 divided by it underflows to zero. *)
Definition astronomic : GameTool :=
  {| self_width := 2 ^ 1102; self_height := 3 * 2 ^ 1100;
     display_num := None; _scaling_enabled := true |}.

Definition a_world : world :=
  {| position := (960, 540); capture_stdout := ""; capture_stderr := "";
     screenshot_file := Some "iVBORw0KGgo=" |}.

End Spec.

(** ** Vocabulary of the further properties *)

Module SpecExtra.
Import Binary64 Py Game Spec.
Local Open Scope string_scope.

(** The [Action] literal of the source: the declared vocabulary. *)
Definition Action : list string :=
  [ "key"; "type"; "mouse_move"; "left_click"; "left_click_drag";
    "right_click"; "middle_click"; "double_click"; "screenshot";
    "cursor_position";
    "left_down"; "left_up";
    "hold_arrow_up"; "release_arrow_up"; "hold_arrow_down";
    "release_arrow_down"; "hold_arrow_left"; "release_arrow_left";
    "hold_arrow_right"; "release_arrow_right" ].

(** The actions of the click and capture class. *)
Definition click_and_capture_actions : list string :=
  [ "left_click"; "right_click"; "double_click"; "middle_click";
    "screenshot"; "cursor_position" ].

(** The action names [__call__] compares with literally; the others it
    accepts are recognised by their prefix. *)
Definition literal_actions : list string :=
  [ "mouse_move"; "left_click_drag"; "key"; "type";
    "left_click"; "right_click"; "double_click"; "middle_click";
    "screenshot"; "cursor_position"; "left_down"; "left_up" ].

(** The event is a shell command. *)
Definition is_shell (e : event) : bool :=
  match e with
  | run _ => true
  | _ => false
  end.

(** The directional tokens of [key]. *)
Definition direction_tokens : list string :=
  [ "right-arrow"; "right"; "left-arrow"; "left";
    "up-arrow"; "up"; "down-arrow"; "down" ].

(** A full-HD display turned to portrait, and a 720p display. *)
Definition portrait_display : GameTool :=
  {| self_width := 1080; self_height := 1920;
     display_num := None; _scaling_enabled := true |}.

Definition hd720 : GameTool :=
  {| self_width := 1280; self_height := 720;
     display_num := None; _scaling_enabled := true |}.

End SpecExtra.

(** ** Construction of the tool *)

Module Construction.
Import Binary64 Py Game.
Local Open Scope string_scope.
Local Open Scope Z_scope.

(** How [__init__] can fail: the assertion on the size, or an exception
    of the builtin [int]. *)
Inductive init_error : Type :=
| AssertionError
| int_raised (e : exn).

Section Init.

(** The builtin [int] on a string: its value, or what it raises. *)
Variable int : string -> result Z.

(** [int(os.getenv(name) or 0)]: an unset or empty variable counts as 0
    and is not parsed. *)
Definition int_getenv_or_0 (v : option string) : result Z :=
  match v with
  | None => Ok 0
  | Some EmptyString => Ok 0
  | Some s => int s
  end.

(** [GameTool.__init__], with assertions enabled.  [environ] is
    [os.getenv]; the attribute [_display_prefix], a function of
    [display_num], is not kept; [_scaling_enabled] is the class
    attribute [True]. *)
Definition __init__ (environ : string -> option string)
  : init_error + GameTool :=
  match int_getenv_or_0 (environ "WIDTH") with
  | Raise e => inl (int_raised e)
  | Ok w =>
      match int_getenv_or_0 (environ "HEIGHT") with
      | Raise e => inl (int_raised e)
      | Ok h =>
          if (w =? 0) || (h =? 0) then inl AssertionError
          else
            match environ "DISPLAY_NUM" with
            | Some display_num =>
                match int display_num with
                | Raise e => inl (int_raised e)
                | Ok n => inr {| self_width := w; self_height := h;
                                 display_num := Some n;
                                 _scaling_enabled := true |}
                end
            | None => inr {| self_width := w; self_height := h;
                             display_num := None;
                             _scaling_enabled := true |}
            end
      end
  end.

End Init.

(** A parser of plain decimal strings, for the examples: it agrees with
    [int] on the strings of ASCII digits and refuses the others. *)
Fixpoint decimal_from (acc : Z) (s : string) : result Z :=
  match s with
  | EmptyString => Ok acc
  | String c rest =>
      let n := Z.of_nat (nat_of_ascii c) in
      if (48 <=? n) && (n <=? 57) then decimal_from (10 * acc + (n - 48)) rest
      else Raise ValueError
  end.

Definition decimal (s : string) : result Z :=
  match s with
  | EmptyString => Raise ValueError
  | _ => decimal_from 0 s
  end.

(** An environment with a full-HD size and display 1, and one without
    a height. *)
Definition hd_environ (name : string) : option string :=
  if String.eqb name "WIDTH" then Some "1920"
  else if String.eqb name "HEIGHT" then Some "1080"
  else if String.eqb name "DISPLAY_NUM" then Some "1"
  else None.

Definition no_height_environ (name : string) : option string :=
  if String.eqb name "WIDTH" then Some "1920"
  else if String.eqb name "HEIGHT" then Some ""
  else None.

End Construction.

(** * Properties *)

(** ** The float model *)

Module Binary64Facts.

Import Binary64 Binary64Check.
Local Open Scope Q_scope.

Lemma pow2_pos e : 0 < pow2 e.
Proof. apply Qpower_0_lt. reflexivity. Qed.

Lemma pow2_add a b : pow2 (a + b) == pow2 a * pow2 b.
Proof. apply Qpower_plus. discriminate. Qed.

Lemma pow2_Z n : (0 <= n)%Z -> pow2 n == inject_Z (2 ^ n).
Proof. intros Hn. symmetry. apply (Zpower_Qpower 2 n Hn). Qed.

Lemma pow2_le a b : (a <= b)%Z -> pow2 a <= pow2 b.
Proof.
  intros Hab. replace b with (a + (b - a))%Z by lia.
  rewrite pow2_add.
  assert (H1 : 1 <= pow2 (b - a)).
  { rewrite pow2_Z by lia. change 1 with (inject_Z 1).
    rewrite <- Zle_Qle. assert (0 < 2 ^ (b - a))%Z by (apply Z.pow_pos_nonneg; lia). lia. }
  pose proof (pow2_pos a). nra.
Qed.

Lemma rne_error q : Qabs (inject_Z (rne q) - q) <= 1 # 2.
Proof.
  unfold rne.
  pose proof (Qfloor_le q) as Hlo.
  pose proof (Qlt_floor q) as Hhi.
  rewrite inject_Z_plus in Hhi. change (inject_Z 1) with 1 in Hhi.
  apply Qabs_Qle_condition.
  destruct (Qcompare (q - inject_Z (Qfloor q)) (1 # 2)) eqn:E.
  - apply Qeq_alt in E.
    destruct (Z.even (Qfloor q)); rewrite ?inject_Z_plus;
      change (inject_Z 1) with 1; lra.
  - apply Qlt_alt in E. lra.
  - apply Qgt_alt in E. rewrite inject_Z_plus.
    change (inject_Z 1) with 1. lra.
Qed.

Lemma rne_unique q n : Qabs (q - inject_Z n) < 1 # 2 -> rne q = n.
Proof.
  intros H. pose proof (rne_error q) as E.
  apply Qabs_Qlt_condition in H. apply Qabs_Qle_condition in E.
  assert (H1 : inject_Z (rne q) < inject_Z (n + 1)).
  { rewrite inject_Z_plus. change (inject_Z 1) with 1. lra. }
  assert (H2 : inject_Z n < inject_Z (rne q + 1)).
  { rewrite inject_Z_plus. change (inject_Z 1) with 1. lra. }
  rewrite <- Zlt_Qlt in H1, H2. lia.
Qed.

Lemma rne_Z n : rne (inject_Z n) = n.
Proof.
  apply rne_unique. setoid_replace (inject_Z n - inject_Z n) with 0 by ring.
  reflexivity.
Qed.

Lemma Qabs_num_den q :
  Qabs q == inject_Z (Z.abs (Qnum q)) / inject_Z (Zpos (Qden q)).
Proof. destruct q as [n d]. simpl. apply Qmake_Qdiv. Qed.

Lemma num_pos q : ~ q == 0 -> (0 < Z.abs (Qnum q))%Z.
Proof.
  intros Hq. destruct q as [n d]. simpl.
  assert (n <> 0%Z); [|lia].
  intros ->. apply Hq. reflexivity.
Qed.

Lemma ilog2_le q : ~ q == 0 -> pow2 (ilog2 q) <= Qabs q.
Proof.
  intros Hq. unfold ilog2.
  set (N := Z.abs (Qnum q)). set (D := Zpos (Qden q)).
  destruct (Qle_bool (pow2 (Z.log2 N - Z.log2 D)) (Qabs q)) eqn:E.
  - now apply Qle_bool_iff.
  - rewrite Qabs_num_den. fold N D.
    assert (HN : (0 < N)%Z) by (apply num_pos; exact Hq).
    assert (HD : (0 < D)%Z) by reflexivity.
    destruct (Z.log2_spec N HN) as [HN1 _].
    destruct (Z.log2_spec D HD) as [_ HD2].
    pose proof (Z.log2_nonneg N). pose proof (Z.log2_nonneg D).
    apply Qle_shift_div_l.
    { change 0 with (inject_Z 0). rewrite <- Zlt_Qlt. exact HD. }
    apply Qle_trans with (pow2 (Z.log2 N - Z.log2 D - 1) * pow2 (Z.log2 D + 1)).
    + apply Qmult_le_l; [apply pow2_pos|].
      rewrite pow2_Z by lia. rewrite <- Zle_Qle. unfold Z.succ in HD2. lia.
    + rewrite <- pow2_add.
      replace (Z.log2 N - Z.log2 D - 1 + (Z.log2 D + 1))%Z with (Z.log2 N) by lia.
      rewrite pow2_Z by lia. rewrite <- Zle_Qle. exact HN1.
Qed.

Lemma ilog2_lt q : ~ q == 0 -> Qabs q < pow2 (ilog2 q + 1).
Proof.
  intros Hq. unfold ilog2.
  set (N := Z.abs (Qnum q)). set (D := Zpos (Qden q)).
  destruct (Qle_bool (pow2 (Z.log2 N - Z.log2 D)) (Qabs q)) eqn:E.
  - rewrite Qabs_num_den. fold N D.
    assert (HN : (0 < N)%Z) by (apply num_pos; exact Hq).
    assert (HD : (0 < D)%Z) by reflexivity.
    destruct (Z.log2_spec N HN) as [_ HN2].
    destruct (Z.log2_spec D HD) as [HD1 _].
    pose proof (Z.log2_nonneg N). pose proof (Z.log2_nonneg D).
    apply Qlt_shift_div_r.
    { change 0 with (inject_Z 0). rewrite <- Zlt_Qlt. exact HD. }
    apply Qlt_le_trans with (pow2 (Z.log2 N - Z.log2 D + 1) * pow2 (Z.log2 D)).
    + rewrite <- pow2_add.
      replace (Z.log2 N - Z.log2 D + 1 + Z.log2 D)%Z with (Z.log2 N + 1)%Z by lia.
      rewrite pow2_Z by lia. rewrite <- Zlt_Qlt. exact HN2.
    + apply Qmult_le_l; [apply pow2_pos|].
      rewrite pow2_Z by lia. rewrite <- Zle_Qle. exact HD1.
  - replace (Z.log2 N - Z.log2 D - 1 + 1)%Z with (Z.log2 N - Z.log2 D)%Z by lia.
    apply Qnot_le_lt. intros Hle. apply Qle_bool_iff in Hle. congruence.
Qed.

Lemma fexp_ge q : (emin <= fexp q)%Z.
Proof. unfold fexp. lia. Qed.

(** The rounded value, without the normalisation of the fraction. *)
Lemma round_eq q :
  round q == inject_Z (rne (q / pow2 (fexp q))) * pow2 (fexp q).
Proof. unfold round. apply Qred_correct. Qed.

Lemma round_half_ulp q : Qabs (round q - q) <= pow2 (fexp q) * (1 # 2).
Proof.
  rewrite round_eq. set (e := fexp q).
  pose proof (pow2_pos e) as He.
  pose proof (rne_error (q / pow2 e)) as E.
  setoid_replace (inject_Z (rne (q / pow2 e)) * pow2 e - q)
    with ((inject_Z (rne (q / pow2 e)) - q / pow2 e) * pow2 e)
    by (field; lra).
  rewrite Qabs_Qmult, (Qabs_pos (pow2 e)) by lra.
  rewrite (Qmult_comm (pow2 e)). apply Qmult_le_compat_r; lra.
Qed.

Lemma round_0 q : q == 0 -> round q == 0.
Proof.
  intros Hq. rewrite round_eq. generalize (fexp q). intros e.
  assert (H : rne (q / pow2 e) = 0%Z).
  { apply rne_unique.
    setoid_replace (q / pow2 e - inject_Z 0) with 0.
    - reflexivity.
    - rewrite Hq. unfold Qdiv. change (inject_Z 0) with 0. ring. }
  rewrite H. change (inject_Z 0) with 0. ring.
Qed.

(** One rounding: a relative error of 2^-53, or an absolute error of
    half the smallest subnormal. *)
Theorem round_error q :
  Qabs (round q - q) <= pow2 (-53) * Qabs q + pow2 (-1075).
Proof.
  pose proof (pow2_pos (-1075)) as Heta.
  pose proof (pow2_pos (-53)) as Hu.
  pose proof (Qabs_nonneg q) as Hq0.
  destruct (Qeq_dec q 0) as [Hz | Hnz].
  - rewrite (round_0 _ Hz), Hz. change (Qabs (0 - 0)) with 0.
    change (Qabs 0) with 0. lra.
  - eapply Qle_trans; [apply round_half_ulp|].
    unfold fexp. destruct (Z.max_spec (ilog2 q - (prec - 1)) emin) as [[_ ->] | [_ ->]].
    + change (pow2 emin * (1 # 2)) with (pow2 (-1074) * pow2 (-1)).
      rewrite <- pow2_add. simpl Z.add.
      assert (0 <= pow2 (-53) * Qabs q) by (apply Qmult_le_0_compat; lra). lra.
    + replace (ilog2 q - (prec - 1))%Z with (ilog2 q + -52)%Z by (unfold prec; lia).
      rewrite pow2_add. change (1 # 2) with (pow2 (-1)).
      rewrite <- Qmult_assoc, <- pow2_add. simpl Z.add.
      pose proof (ilog2_le _ Hnz).
      rewrite (Qmult_comm (pow2 (-53)) (Qabs q)).
      assert (pow2 (ilog2 q) * pow2 (-53) <= Qabs q * pow2 (-53))
        by (apply Qmult_le_compat_r; lra).
      lra.
Qed.

Lemma u_val : pow2 (-53) == 1 # 9007199254740992.
Proof. reflexivity. Qed.

Lemma eta_small : pow2 (-1075) <= 1 # 1000000000000000000000000000000.
Proof.
  apply Qle_trans with (pow2 (-100)); [apply pow2_le; lia|].
  apply Qle_bool_iff. reflexivity.
Qed.

Lemma round_abs_le q :
  Qabs (round q) <= Qabs q + pow2 (-53) * Qabs q + pow2 (-1075).
Proof.
  pose proof (round_error q) as E.
  pose proof (Qabs_triangle (round q - q) q) as T.
  setoid_replace (round q - q + q) with (round q) in T by ring.
  lra.
Qed.

Theorem of_exact_finite q :
  Qabs q <= pow2 1023 -> of_exact q = Finite (round q).
Proof.
  intros Hq. unfold of_exact.
  destruct (Qle_bool (pow2 emax) (Qabs (round q))) eqn:E; [|reflexivity].
  exfalso. apply Qle_bool_iff in E.
  pose proof (round_abs_le q) as B.
  pose proof eta_small as He. rewrite u_val in B.
  assert (H2 : pow2 emax == 2 * pow2 1023).
  { change emax with (1 + 1023)%Z. rewrite pow2_add. reflexivity. }
  assert (H1 : 1 <= pow2 1023).
  { change 1 with (pow2 0). apply pow2_le. lia. }
  rewrite H2 in E. lra.
Qed.

Lemma ilog2_upper q k : ~ q == 0 -> Qabs q < pow2 k -> (ilog2 q < k)%Z.
Proof.
  intros Hq Hk. destruct (Z_lt_le_dec (ilog2 q) k) as [|Hge]; [assumption|].
  exfalso. pose proof (ilog2_le _ Hq). pose proof (pow2_le _ _ Hge). lra.
Qed.

(** Integers of at most 53 bits are floats. *)
Theorem round_int n : (Z.abs n < 2 ^ 53)%Z -> round (inject_Z n) == inject_Z n.
Proof.
  intros Hn. destruct (Z.eq_dec n 0) as [-> | Hnz].
  { apply round_0. reflexivity. }
  assert (Hq : ~ inject_Z n == 0).
  { intros H. apply Hnz. unfold Qeq in H. simpl in H. lia. }
  assert (Hlog : (ilog2 (inject_Z n) < 53)%Z).
  { apply ilog2_upper; [exact Hq|].
    rewrite pow2_Z by lia.
    setoid_replace (Qabs (inject_Z n)) with (inject_Z (Z.abs n)) by reflexivity.
    rewrite <- Zlt_Qlt. exact Hn. }
  rewrite round_eq.
  set (e := fexp (inject_Z n)).
  assert (He : (emin <= e <= 0)%Z).
  { unfold e, fexp, emin, emax, prec in *. lia. }
  assert (Hm : inject_Z n / pow2 e == inject_Z (n * 2 ^ (- e))).
  { rewrite inject_Z_mult, <- pow2_Z by lia.
    unfold pow2. rewrite Qpower_opp. reflexivity. }
  assert (Hr : rne (inject_Z n / pow2 e) = (n * 2 ^ (- e))%Z).
  { apply rne_unique. rewrite Hm.
    setoid_replace (inject_Z (n * 2 ^ (- e)) - inject_Z (n * 2 ^ (- e))) with 0 by ring.
    reflexivity. }
  rewrite Hr, inject_Z_mult, <- pow2_Z by lia.
  rewrite <- Qmult_assoc, <- pow2_add.
  replace (- e + e)%Z with 0%Z by lia. change (pow2 0) with 1. ring.
Qed.


Lemma pow2_lt a b : (a < b)%Z -> pow2 a < pow2 b.
Proof.
  intros Hab. replace b with (a + (b - a))%Z by lia.
  rewrite pow2_add.
  assert (H1 : 2 <= pow2 (b - a)).
  { change 2 with (pow2 1). apply pow2_le. lia. }
  pose proof (pow2_pos a). nra.
Qed.

(** The binade of a non-zero rational is unique. *)
Lemma ilog2_unique q k :
  pow2 k <= Qabs q -> Qabs q < pow2 (k + 1) -> ilog2 q = k.
Proof.
  intros Hlo Hhi.
  assert (Hq : ~ q == 0).
  { intros Hz. rewrite Hz in Hlo. pose proof (pow2_pos k).
    change (Qabs 0) with 0 in Hlo. lra. }
  pose proof (ilog2_le q Hq) as H1. pose proof (ilog2_lt q Hq) as H2.
  destruct (Z.lt_trichotomy (ilog2 q) k) as [Hlt | [Heq | Hgt]]; [|exact Heq|].
  - exfalso. assert (H : pow2 (ilog2 q + 1) <= pow2 k) by (apply pow2_le; lia). lra.
  - exfalso. assert (H : pow2 (k + 1) <= pow2 (ilog2 q)) by (apply pow2_le; lia). lra.
Qed.

Lemma rne_proper q q' : q == q' -> rne q = rne q'.
Proof.
  intros E. unfold rne.
  assert (F : Qfloor q = Qfloor q') by (now rewrite E).
  rewrite F.
  assert (C : Qcompare (q - inject_Z (Qfloor q')) (1 # 2)
          = Qcompare (q' - inject_Z (Qfloor q')) (1 # 2)) by (now rewrite E).
  now rewrite C.
Qed.

(** The float of a rational does not depend on how the fraction is
    written. *)
Theorem round_proper q q' : q == q' -> Binary64.round q = Binary64.round q'.
Proof.
  intros E. unfold Binary64.round. apply Qred_complete.
  destruct (Qeq_dec q 0) as [Hz | Hnz].
  - rewrite <- !round_eq, (round_0 q Hz), (round_0 q').
    + reflexivity.
    + now rewrite <- E.
  - assert (Hf : fexp q = fexp q').
    { unfold fexp. f_equal. f_equal. apply ilog2_unique.
      - rewrite E. apply ilog2_le. now rewrite <- E.
      - rewrite E. apply ilog2_lt. now rewrite <- E. }
    rewrite Hf.
    rewrite (rne_proper (q / pow2 (fexp q')) (q' / pow2 (fexp q')))
      by (now rewrite E).
    reflexivity.
Qed.

(** A rounded value lies on the grid of its binade: an integer of at
    most 53 bits times a power of two not below the smallest subnormal. *)
Theorem round_representable q :
  exists m e, Binary64.round q == inject_Z m * pow2 e /\
              (Z.abs m <= 2 ^ 53)%Z /\ (emin <= e)%Z.
Proof.
  exists (rne (q / pow2 (fexp q))), (fexp q).
  split; [apply round_eq|]. split; [|apply fexp_ge].
  set (e := fexp q). set (x := q / pow2 e).
  assert (Hx : Qabs x <= inject_Z (2 ^ 53)).
  { destruct (Qeq_dec q 0) as [Hz | Hnz].
    - unfold x. rewrite Hz. unfold Qdiv. rewrite Qmult_0_l. discriminate.
    - pose proof (ilog2_lt q Hnz) as Hlt.
      pose proof (pow2_pos e) as He.
      unfold x, Qdiv. rewrite Qabs_Qmult, Qabs_Qinv, (Qabs_pos (pow2 e)) by lra.
      apply Qle_shift_div_r; [exact He|].
      rewrite <- pow2_Z, <- pow2_add by lia.
      apply Qlt_le_weak. eapply Qlt_le_trans; [exact Hlt|].
      apply pow2_le. unfold e, fexp, prec. lia. }
  pose proof (rne_error x) as Er. apply Qabs_Qle_condition in Er.
  apply Qabs_Qle_condition in Hx.
  assert (H1 : inject_Z (rne x) < inject_Z (2 ^ 53 + 1)).
  { rewrite inject_Z_plus. change (inject_Z 1) with 1. lra. }
  assert (H2 : inject_Z (- 2 ^ 53 - 1) < inject_Z (rne x)).
  { change (- 2 ^ 53 - 1)%Z with (- (2 ^ 53 + 1))%Z.
    rewrite inject_Z_opp, inject_Z_plus. change (inject_Z 1) with 1. lra. }
  rewrite <- Zlt_Qlt in H1, H2. lia.
Qed.

(** The model and the standard library's specification compute the
    same floats on the samples: conversion, division, multiplication
    and subtraction, including subnormal results and overflow. *)
Example agrees_with_SpecFloat :
  forallb agree_of_int samples = true /\
  forallb agree_div samples = true /\
  forallb agree_mul samples = true /\
  forallb agree_sub samples = true.
Proof. repeat split; vm_compute; reflexivity. Qed.

(** The three floats of the source's constants. *)
Example source_floats :
  literal (2 # 100) = Finite (5764607523034235 # 288230376151711744) /\
  of_exact (1366 # 1920) = Finite (1602061742444817 # 2251799813685248) /\
  of_exact (4 # 3) = Finite (6004799503160661 # 4503599627370496).
Proof. repeat split; vm_compute; reflexivity. Qed.
End Binary64Facts.

(** ** Python arithmetic away from the limits of the format *)

Module PyFacts.

Import Binary64 Py Binary64Facts.
Local Open Scope Q_scope.

Lemma int_truediv_inv a b f :
  int_truediv a b = Ok f ->
  b <> 0%Z /\ f = Finite (Binary64.round (inject_Z a / inject_Z b)).
Proof.
  unfold int_truediv. destruct (Z.eqb_spec b 0); [discriminate|].
  unfold of_exact.
  destruct (Qle_bool _ _); [discriminate|].
  intros [= <-]. split; [assumption | reflexivity].
Qed.

Lemma int_truediv_ok a b :
  b <> 0%Z -> Qabs (inject_Z a / inject_Z b) <= pow2 1023 ->
  int_truediv a b = Ok (Finite (Binary64.round (inject_Z a / inject_Z b))).
Proof.
  intros Hb Hq. unfold int_truediv.
  destruct (Z.eqb_spec b 0); [contradiction|].
  now rewrite (of_exact_finite _ Hq).
Qed.

Lemma float_of_int_ok n :
  Qabs (inject_Z n) <= pow2 1023 ->
  float_of_int n = Ok (Finite (Binary64.round (inject_Z n))).
Proof.
  intros Hq. unfold float_of_int. now rewrite (of_exact_finite _ Hq).
Qed.

Lemma is_zero_false q : ~ q == 0 -> is_zero q = false.
Proof.
  intros Hq. unfold is_zero. destruct (Qeq_bool q 0) eqn:E; [|reflexivity].
  apply Qeq_bool_iff in E. contradiction.
Qed.

(** [round(n / f)] away from the limits of the format. *)
Lemma round_int_div_float n s :
  Qabs (inject_Z n) <= pow2 1023 -> ~ s == 0 ->
  Qabs (Binary64.round (inject_Z n) / s) <= pow2 1023 ->
  bind (int_div_float n (Finite s)) Py.round
  = Ok (rne (Binary64.round (Binary64.round (inject_Z n) / s))).
Proof.
  intros Hn Hs Hq. unfold int_div_float.
  rewrite (float_of_int_ok _ Hn). simpl.
  rewrite (is_zero_false _ Hs). simpl.
  now rewrite (of_exact_finite _ Hq).
Qed.

(** [round(n * f)] away from the limits of the format. *)
Lemma round_int_mul_float n s :
  Qabs (inject_Z n) <= pow2 1023 ->
  Qabs (Binary64.round (inject_Z n) * s) <= pow2 1023 ->
  bind (int_mul_float n (Finite s)) Py.round
  = Ok (rne (Binary64.round (Binary64.round (inject_Z n) * s))).
Proof.
  intros Hn Hq. unfold int_mul_float.
  rewrite (float_of_int_ok _ Hn). simpl.
  now rewrite (of_exact_finite _ Hq).
Qed.

Lemma of_exact_proper q q' : q == q' -> of_exact q = of_exact q'.
Proof. intros E. unfold of_exact. now rewrite (round_proper q q' E). Qed.

(** Equal fractions give the same float quotient. *)
Lemma int_truediv_same_ratio a b c d :
  b <> 0%Z -> d <> 0%Z -> (a * d = b * c)%Z ->
  int_truediv a b = int_truediv c d.
Proof.
  intros Hb Hd E. unfold int_truediv.
  destruct (Z.eqb_spec b 0); [contradiction|].
  destruct (Z.eqb_spec d 0); [contradiction|].
  rewrite (of_exact_proper (inject_Z a / inject_Z b) (inject_Z c / inject_Z d));
    [reflexivity|].
  assert (Hbq : ~ inject_Z b == 0).
  { intros Hz. apply Hb. unfold Qeq in Hz. simpl in Hz. lia. }
  assert (Hdq : ~ inject_Z d == 0).
  { intros Hz. apply Hd. unfold Qeq in Hz. simpl in Hz. lia. }
  assert (Eq : inject_Z a * inject_Z d == inject_Z b * inject_Z c).
  { rewrite <- !inject_Z_mult. now rewrite E. }
  field_simplify_eq; [|split; assumption]. lra.
Qed.

End PyFacts.

(** ** Error analysis of one axis *)

Module ScaleFacts.

Import Binary64 Py Binary64Facts PyFacts.
Local Open Scope Q_scope.

Lemma round_err q : Qabs (Binary64.round q - q) <= u * Qabs q + eta.
Proof.
  pose proof (round_error q) as E. rewrite u_val in E.
  pose proof eta_small. unfold u, eta. lra.
Qed.

(** Two-sided form of an error bound. *)
Lemma abs_le_iff x y e : Qabs (x - y) <= e <-> y - e <= x <= y + e.
Proof. rewrite Qabs_Qle_condition. split; intros []; split; lra. Qed.

Lemma round_near q : 0 <= q ->
  q - (u * q + eta) <= Binary64.round q <= q + (u * q + eta).
Proof.
  intros Hq. pose proof (round_err q) as E. rewrite (Qabs_pos q Hq) in E.
  now apply abs_le_iff.
Qed.

Lemma rne_near q : q - (1 # 2) <= inject_Z (rne q) <= q + (1 # 2).
Proof. apply abs_le_iff. apply rne_error. Qed.

Lemma round_within q B : Qabs q <= B ->
  q - (u * B + eta) <= Binary64.round q <= q + (u * B + eta).
Proof.
  intros HB. pose proof (round_err q) as E. apply abs_le_iff in E.
  unfold u in *. lra.
Qed.

Lemma abs_le x B : - B <= x <= B -> Qabs x <= B.
Proof. intros H. now apply Qabs_Qle_condition. Qed.

Lemma inject_Z_le_lit a b : (a <= b)%Z -> inject_Z a <= inject_Z b.
Proof. now rewrite <- Zle_Qle. Qed.

(** The scale factor [target / configured] of one axis. *)
Lemma factor_bounds tgt dim :
  (0 < tgt)%Z -> (tgt <= 2 * dim)%Z -> (dim <= 2 ^ 48)%Z ->
  let t := inject_Z tgt / inject_Z dim in
  let s := Binary64.round t in
  (1 # 562949953421312) <= s <= 201 # 100 /\
  t - (u * t + eta) <= s <= t + (u * t + eta) /\
  t * inject_Z dim == inject_Z tgt /\ 0 < t <= 2.
Proof.
  intros Ht Htd Hd t s.
  assert (HT : 1 <= inject_Z tgt) by (apply (inject_Z_le_lit 1); lia).
  assert (HD : 1 <= inject_Z dim) by (apply (inject_Z_le_lit 1); lia).
  assert (HD2 : inject_Z dim <= 281474976710656)
    by (apply (inject_Z_le_lit dim (2 ^ 48)); lia).
  assert (HTD : inject_Z tgt <= 2 * inject_Z dim).
  { change 2 with (inject_Z 2). rewrite <- inject_Z_mult.
    apply inject_Z_le_lit. lia. }
  assert (Hmul : t * inject_Z dim == inject_Z tgt) by (unfold t; field; lra).
  assert (Ht0 : 0 < t).
  { unfold t. apply Qlt_shift_div_l; lra. }
  assert (Ht2 : t <= 2).
  { unfold t. apply Qle_shift_div_r; lra. }
  assert (Htlo : (1 # 281474976710656) <= t).
  { unfold t. apply Qle_shift_div_l; [lra|]. lra. }
  pose proof (round_near t (Qlt_le_weak _ _ Ht0)) as Hs. fold s in Hs.
  unfold u, eta in *. repeat split; try lra.
Qed.

Lemma lit_le_pow2_1023 q : q <= 1000000000000000000000000000000000000000000 -> q <= pow2 1023.
Proof.
  intros H. eapply Qle_trans; [exact H|].
  apply Qle_trans with (pow2 200); [|apply pow2_le; lia].
  apply Qle_bool_iff. reflexivity.
Qed.

(** One axis of the agent-to-physical map: the code returns the integer
    nearest to the float quotient, and that integer times the factor is
    close to the input. *)
Lemma axis_up tgt dim n :
  (0 < tgt)%Z -> (tgt <= 2 * dim)%Z -> (dim <= 2 ^ 48)%Z ->
  (0 <= n <= dim)%Z ->
  let s := Binary64.round (inject_Z tgt / inject_Z dim) in
  let b := Binary64.round (Binary64.round (inject_Z n) / s) in
  int_div_float n (Finite s) = Ok (Finite b) /\
  bind (int_div_float n (Finite s)) Py.round = Ok (rne b) /\
  (0 <= rne b)%Z /\
  inject_Z (rne b) <= 1000000000000000000000000000000 /\
  inject_Z n - (u * inject_Z n + eta * s + s * (1 # 2))
    <= inject_Z (rne b) * s
    <= inject_Z n + (u * inject_Z n + eta * s + s * (1 # 2)).
Proof.
  intros Ht Htd Hd Hn s b.
  destruct (factor_bounds tgt dim Ht Htd Hd) as [Hs _]. fold s in Hs.
  assert (HN0 : 0 <= inject_Z n) by (apply (inject_Z_le_lit 0); lia).
  assert (HN1 : inject_Z n <= 281474976710656)
    by (apply (inject_Z_le_lit n (2 ^ 48)); lia).
  assert (Ha : Binary64.round (inject_Z n) == inject_Z n).
  { apply round_int. lia. }
  set (q1 := Binary64.round (inject_Z n) / s) in *.
  assert (Hq1 : q1 * s == inject_Z n).
  { unfold q1. rewrite Ha. field. lra. }
  assert (Hq1lo : 0 <= q1).
  { unfold q1. rewrite Ha. apply Qle_shift_div_l; lra. }
  assert (Hq1hi : q1 <= 158456325028528675187087900672).
  { unfold q1. rewrite Ha. apply Qle_shift_div_r; lra. }
  pose proof (round_near q1 Hq1lo) as Hb. fold b in Hb.
  pose proof (rne_near b) as HX.
  assert (HX0 : (0 <= rne b)%Z).
  { assert (H : inject_Z (-1) < inject_Z (rne b)).
    { change (inject_Z (-1)) with (-1 # 1). unfold u, eta in *. lra. }
    rewrite <- Zlt_Qlt in H. lia. }
  assert (Hsteps :
    int_div_float n (Finite s) = Ok (Finite b) /\
    bind (int_div_float n (Finite s)) Py.round = Ok (rne b)).
  { assert (E : int_div_float n (Finite s) = Ok (Finite b)).
    { unfold int_div_float.
      rewrite float_of_int_ok by (apply lit_le_pow2_1023; rewrite Qabs_pos; lra).
      simpl. rewrite is_zero_false by lra. simpl.
      rewrite of_exact_finite; [reflexivity|].
      apply lit_le_pow2_1023. fold q1. rewrite Qabs_pos; lra. }
    split; [exact E|]. rewrite E. reflexivity. }
  destruct Hsteps as [E1 E2].
  unfold u, eta in *. repeat split; try assumption; try lra; nra.
Qed.

Lemma int_within_one c n m :
  inject_Z n - (3 # 2) < c < inject_Z n + (3 # 2) ->
  c - (1 # 2) <= inject_Z m <= c + (1 # 2) ->
  (Z.abs (m - n) <= 1)%Z.
Proof.
  intros Hc Hm.
  assert (H1 : inject_Z m < inject_Z (n + 2)).
  { rewrite inject_Z_plus. change (inject_Z 2) with 2. lra. }
  assert (H2 : inject_Z n < inject_Z (m + 2)).
  { rewrite inject_Z_plus. change (inject_Z 2) with 2. lra. }
  rewrite <- Zlt_Qlt in H1, H2. lia.
Qed.

(** One axis of the physical-to-agent map, applied to an integer whose
    product with the factor is within [e] of [n]. *)
Lemma axis_down X s n e :
  (1 # 562949953421312) <= s <= 201 # 100 ->
  (0 <= X)%Z -> inject_Z X <= 1000000000000000000000000000000 ->
  0 <= inject_Z n <= 281474976710656 ->
  0 <= e <= 2 ->
  inject_Z n - e <= inject_Z X * s <= inject_Z n + e ->
  let c := Binary64.round (Binary64.round (inject_Z X) * s) in
  bind (int_mul_float X (Finite s)) Py.round = Ok (rne c) /\
  inject_Z n - (e + (1 # 4)) <= c <= inject_Z n + (e + (1 # 4)).
Proof.
  intros Hs HX0 HX1 Hn He HXs c.
  assert (HXq : 0 <= inject_Z X) by (apply (inject_Z_le_lit 0); lia).
  assert (HXabs : Qabs (inject_Z X) <= inject_Z X) by (rewrite Qabs_pos; lra).
  pose proof (round_within (inject_Z X) (inject_Z X) HXabs) as Ha.
  set (a := Binary64.round (inject_Z X)) in *.
  assert (Hprod : - (inject_Z n + e + (1 # 16)) <= a * s <= inject_Z n + e + (1 # 16)).
  { unfold u, eta in *. split; nra. }
  pose proof (round_within (a * s) _ (abs_le _ _ Hprod)) as Hc. fold c in Hc.
  split.
  - unfold int_mul_float.
    rewrite float_of_int_ok by (apply lit_le_pow2_1023; lra).
    simpl. fold a.
    rewrite of_exact_finite; [reflexivity|].
    apply lit_le_pow2_1023. eapply Qle_trans; [apply (abs_le _ _ Hprod)|].
    lra.
  - unfold u, eta in *. split; nra.
Qed.

End ScaleFacts.

(** ** Target selection *)

Module TargetFacts.

Import Binary64 Py Game Spec Binary64Facts PyFacts ScaleFacts.
Local Open Scope Q_scope.

(** What the loop has established when it returns a target. *)
Lemma scan_targets_sound ratio w dims t :
  scan_targets ratio w dims = Ok (Some t) ->
  In t dims /\ (width t < w)%Z /\
  exists r, int_truediv (width t) (height t) = Ok r /\
            ltb (abs (sub r ratio)) (literal (2 # 100)) = true.
Proof.
  induction dims as [|d rest IH]; simpl; [discriminate|].
  destruct (int_truediv (width d) (height d)) as [r|e] eqn:Er; simpl;
    [|discriminate].
  destruct (ltb (abs (sub r ratio)) (literal (2 # 100))) eqn:Em.
  - destruct (Z.ltb_spec (width d) w); intros [= <-].
    split; [now left|]. split; [assumption|]. now exists r.
  - intros H. destruct (IH H) as (Hin & Hw & Hr).
    split; [now right|]. now split.
Qed.

(** The test [abs(r - ratio) < 0.02] bounds the exact difference. *)
Lemma close_ratio r rho :
  ltb (abs (sub (Finite r) (Finite rho))) (literal (2 # 100)) = true ->
  Qabs (r - rho) <= 3 # 100.
Proof.
  remember (r - rho) as z.
  change (sub (Finite r) (Finite rho)) with (of_exact (r - rho)).
  rewrite <- Heqz. clear Heqz r rho.
  change (literal (2 # 100)) with (Finite (5764607523034235 # 288230376151711744)).
  unfold of_exact.
  destruct (Qle_bool (pow2 emax) (Qabs (Binary64.round z))).
  { intros H. discriminate H. }
  unfold abs, ltb. intros H. apply negb_true_iff in H.
  assert (Hlt : Qabs (Binary64.round z) < 5764607523034235 # 288230376151711744).
  { apply Qnot_le_lt. intros Hle. apply Qle_bool_iff in Hle. congruence. }
  pose proof (round_err z) as E.
  pose proof (Qabs_triangle_reverse z (Binary64.round z)) as T.
  rewrite (Qabs_Qminus z) in T.
  pose proof (Qabs_nonneg z).
  unfold u, eta in *. lra.
Qed.

(** A float ratio in the range of the table comes from positive
    dimensions of a landscape shape. *)
Lemma ratio_shape W H rho :
  int_truediv W H = Ok (Finite rho) -> (0 < W)%Z ->
  (127 # 100) <= rho <= 181 # 100 ->
  (0 < H)%Z /\ (12 * H <= 10 * W)%Z /\ (10 * W <= 19 * H)%Z.
Proof.
  intros Hr HW Hrho.
  apply int_truediv_inv in Hr. destruct Hr as [HH [= ->]].
  set (q := inject_Z W / inject_Z H) in *.
  pose proof (round_err q) as E. apply abs_le_iff in E.
  assert (HWq : 1 <= inject_Z W) by (apply (inject_Z_le_lit 1); lia).
  assert (HHq : ~ inject_Z H == 0).
  { intros Hz. apply HH. unfold Qeq in Hz. simpl in Hz. lia. }
  assert (Hmul : q * inject_Z H == inject_Z W) by (unfold q; field; exact HHq).
  assert (Hq : (12 # 10) <= q <= 19 # 10).
  { destruct (Qlt_le_dec q 0) as [Hneg | Hpos].
    - rewrite (Qabs_neg q) in E by lra. unfold u, eta in *. lra.
    - rewrite (Qabs_pos q) in E by lra. unfold u, eta in *. lra. }
  assert (HHpos : 0 < inject_Z H).
  { destruct (Qlt_le_dec 0 (inject_Z H)); [assumption|]. nra. }
  assert (H0 : (0 < H)%Z).
  { rewrite Zlt_Qlt. exact HHpos. }
  split; [exact H0|].
  split; rewrite Zle_Qle, !inject_Z_mult.
  - change (inject_Z 12) with 12. change (inject_Z 10) with 10. nra.
  - change (inject_Z 19) with 19. change (inject_Z 10) with 10. nra.
Qed.

Lemma table_entries t :
  In t (map snd MAX_SCALING_TARGETS) ->
  t = {| width := 1024; height := 768 |} \/
  t = {| width := 1280; height := 800 |} \/
  t = {| width := 1366; height := 768 |}.
Proof. simpl. intuition. Qed.

(** A selected target is a table entry narrower than the configured
    width, and the configured shape is within the table's range. *)
Lemma selected_shape self t :
  target_dimension self = Ok (Some t) ->
  In t (map snd MAX_SCALING_TARGETS) /\
  (width t < self_width self)%Z /\
  (0 < self_height self)%Z /\
  (12 * self_height self <= 10 * self_width self)%Z /\
  (10 * self_width self <= 19 * self_height self)%Z.
Proof.
  unfold target_dimension.
  destruct (int_truediv (self_width self) (self_height self)) as [ratio|e] eqn:Er;
    cbn [bind]; [|discriminate].
  intros Hscan. apply scan_targets_sound in Hscan.
  destruct Hscan as (Hin & Hw & r & Hr & Hm).
  split; [exact Hin|]. split; [exact Hw|].
  destruct (int_truediv_inv _ _ _ Er) as [_ ->].
  assert (HW : (0 < self_width self)%Z).
  { destruct (table_entries t Hin) as [-> | [-> | ->]]; simpl in Hw; lia. }
  apply (ratio_shape _ _ _ Er HW).
  destruct (table_entries t Hin) as [-> | [-> | ->]];
    vm_compute in Hr; injection Hr as <-;
    apply close_ratio in Hm; apply Qabs_Qle_condition in Hm; lra.
Qed.

Lemma quotient_le a b : b <> 0%Z ->
  Qabs (inject_Z a / inject_Z b) <= inject_Z (Z.abs a).
Proof.
  intros Hb. unfold Qdiv. rewrite Qabs_Qmult, Qabs_Qinv.
  change (Qabs (inject_Z a)) with (inject_Z (Z.abs a)).
  change (Qabs (inject_Z b)) with (inject_Z (Z.abs b)).
  assert (H1 : 1 <= inject_Z (Z.abs b)) by (apply (inject_Z_le_lit 1); lia).
  assert (H0 : 0 <= inject_Z (Z.abs a)) by (apply (inject_Z_le_lit 0); lia).
  apply Qle_shift_div_r; [lra|]. nra.
Qed.

(** The factors of a selected target are always computed. *)
Lemma factor_ok tgt dim :
  (Z.abs tgt <= 2000)%Z -> dim <> 0%Z ->
  int_truediv tgt dim
  = Ok (Finite (Binary64.round (inject_Z tgt / inject_Z dim))).
Proof.
  intros Ht Hd. apply int_truediv_ok; [exact Hd|].
  apply lit_le_pow2_1023.
  eapply Qle_trans; [apply quotient_le; exact Hd|].
  eapply Qle_trans; [apply (inject_Z_le_lit _ 2000); exact Ht|].
  apply Qle_bool_iff. reflexivity.
Qed.

(** [scale_coordinates] once a target is selected. *)
Lemma scale_coordinates_selected self t source x y :
  selected self t ->
  let fx := Finite (Binary64.round (inject_Z (width t) / inject_Z (self_width self))) in
  let fy := Finite (Binary64.round (inject_Z (height t) / inject_Z (self_height self))) in
  int_truediv (width t) (self_width self) = Ok fx /\
  int_truediv (height t) (self_height self) = Ok fy /\
  scale_coordinates self source x y =
  match source with
  | API =>
      if ((x >? self_width self) || (y >? self_height self))%Z
      then
        bind (str_int x) (fun _ =>
        bind (str_int y) (fun _ =>
        Raise (ToolError (Coordinates_are_out_of_bounds (Int x) (Int y)))))
      else
        bind (bind (int_div_float x fx) Py.round) (fun x' =>
        bind (bind (int_div_float y fy) Py.round) (fun y' =>
        Ok (x', y')))
  | COMPUTER =>
      bind (bind (int_mul_float x fx) Py.round) (fun x' =>
      bind (bind (int_mul_float y fy) Py.round) (fun y' =>
      Ok (x', y')))
  end.
Proof.
  intros [Hen Ht] fx fy.
  destruct (selected_shape _ _ Ht) as (Hin & Hw & HH & _).
  assert (Ex : int_truediv (width t) (self_width self) = Ok fx).
  { apply factor_ok; destruct (table_entries t Hin) as [-> | [-> | ->]];
      simpl in *; lia. }
  assert (Ey : int_truediv (height t) (self_height self) = Ok fy).
  { apply factor_ok; destruct (table_entries t Hin) as [-> | [-> | ->]];
      simpl in *; lia. }
  split; [exact Ex|]. split; [exact Ey|].
  unfold scale_coordinates, scale_coordinates_on.
  rewrite Hen, Ht. cbn [negb bind].
  rewrite Ex, Ey. cbn [bind]. destruct source; reflexivity.
Qed.

End TargetFacts.

(** ** Formatting of ints *)

Module FormatFacts.

Import Py Game Spec.
Local Open Scope Z_scope.

Lemma str_int_cases n :
  (printable n /\ str_int n = Ok tt) \/
  (~ printable n /\ str_int n = Raise ValueError).
Proof.
  unfold printable, str_int.
  destruct (Z.ltb_spec (Z.abs n) (10 ^ INT_MAX_STR_DIGITS)) as [H | H].
  - left. split; [exact H | reflexivity].
  - right. split; [apply Z.le_ngt; exact H | reflexivity].
Qed.

Lemma str_int_printable n : printable n -> str_int n = Ok tt.
Proof.
  intros H. destruct (str_int_cases n) as [[_ E] | [N _]];
    [exact E | contradiction].
Qed.

Lemma float_range_below_limit : 2 ^ 1024 < 10 ^ INT_MAX_STR_DIGITS.
Proof. vm_compute. reflexivity. Qed.

(** Every int in the range of the floats is printable. *)
Lemma printable_in_float_range n : Z.abs n <= 2 ^ 1024 -> printable n.
Proof.
  intros H. unfold printable.
  eapply Z.le_lt_trans; [exact H | exact float_range_below_limit].
Qed.

Lemma format_items items :
  Forall (fun v => (prints v /\ format v = Ok tt) \/
                   (~ prints v /\ format v = Raise ValueError)) items ->
  (prints (List items) /\ format (List items) = Ok tt) \/
  (~ prints (List items) /\ format (List items) = Raise ValueError).
Proof.
  unfold prints.
  induction 1 as [|v items Hv _ IH]; cbn [format ints_of] in *.
  - left. split; [constructor | reflexivity].
  - destruct Hv as [[Pv ->] | [Nv ->]]; cbn [bind].
    + destruct IH as [[Pr Er] | [Nr Er]].
      * left. split; [apply Forall_app; split; assumption | exact Er].
      * right. split; [|exact Er].
        intros H. apply Forall_app in H. tauto.
    + right. split; [|reflexivity].
      intros H. apply Forall_app in H. tauto.
Qed.

(** Formatting a value returns exactly when every int inside it is
    printable, and raises [ValueError] otherwise. *)
Lemma format_cases v :
  (prints v /\ format v = Ok tt) \/
  (~ prints v /\ format v = Raise ValueError).
Proof.
  induction v using value_induction;
    try (left; split; [constructor | reflexivity]).
  - destruct (str_int_cases n) as [[Pn E] | [Nn E]].
    + left. split; [repeat constructor; exact Pn | exact E].
    + right. split; [|exact E].
      intros H. inversion H; contradiction.
  - apply format_items. assumption.
  - apply (format_items items). assumption.
Qed.

(** The smallest int of 4301 digits is not printable, and lies beyond
    any size that fits a float. *)
Lemma limit_not_printable : ~ printable (10 ^ 4300).
Proof.
  unfold printable, INT_MAX_STR_DIGITS.
  rewrite Z.abs_eq by (apply Z.pow_nonneg; discriminate).
  apply Z.lt_irrefl.
Qed.

Lemma limit_beyond n : n <= 2 ^ 1024 -> 10 ^ 4300 > n.
Proof.
  intros H. apply Z.lt_gt.
  eapply Z.le_lt_trans; [exact H | exact float_range_below_limit].
Qed.

(** Formatting the two ints of a message. *)
Lemma format_pair_printable {A} x y (k : result A) :
  printable x -> printable y ->
  bind (str_int x) (fun _ => bind (str_int y) (fun _ => k)) = k.
Proof.
  intros Hx Hy.
  now rewrite (str_int_printable _ Hx), (str_int_printable _ Hy).
Qed.

Lemma format_pair_unprintable {A} x y (k : result A) :
  ~ (printable x /\ printable y) ->
  bind (str_int x) (fun _ => bind (str_int y) (fun _ => k)) = Raise ValueError.
Proof.
  intros H.
  destruct (str_int_cases x) as [[Px ->] | [_ ->]]; [|reflexivity].
  destruct (str_int_cases y) as [[Py _] | [_ ->]]; [|reflexivity].
  exfalso. apply H. split; assumption.
Qed.

End FormatFacts.

(** ** CoordinateMapper: the claims on [scale_coordinates] and [options] *)

Module CoordinateMapper.

Import Binary64 Py Game Spec Binary64Facts PyFacts ScaleFacts TargetFacts.
Import FormatFacts.
Local Open Scope Q_scope.

(** Up, then down, along one axis. *)
Lemma axis_roundtrip tgt dim n :
  (0 < tgt)%Z -> (tgt <= 2 * dim)%Z -> (dim <= 2 ^ 48)%Z ->
  (0 <= n <= dim)%Z ->
  let f := Finite (Binary64.round (inject_Z tgt / inject_Z dim)) in
  exists X n',
    bind (int_div_float n f) Py.round = Ok X /\
    bind (int_mul_float X f) Py.round = Ok n' /\
    (Z.abs (n' - n) <= 1)%Z.
Proof.
  intros Ht Htd Hd Hn f. unfold f.
  destruct (factor_bounds tgt dim Ht Htd Hd) as [Hs _].
  destruct (axis_up tgt dim n Ht Htd Hd Hn) as (_ & Eup & HX0 & HX1 & HXs).
  set (s := Binary64.round (inject_Z tgt / inject_Z dim)) in *.
  set (X := rne (Binary64.round (Binary64.round (inject_Z n) / s))) in *.
  assert (HN0 : 0 <= inject_Z n) by (apply (inject_Z_le_lit 0); lia).
  assert (HN1 : inject_Z n <= 281474976710656)
    by (apply (inject_Z_le_lit n (2 ^ 48)); lia).
  set (e := u * inject_Z n + eta * s + s * (1 # 2)) in *.
  assert (He : 0 <= e <= 2) by (unfold e, u, eta; split; lra).
  destruct (axis_down X s n e Hs HX0 HX1 (conj HN0 HN1) He) as [Edown Hc].
  { split; lra. }
  exists X, (rne (Binary64.round (Binary64.round (inject_Z X) * s))).
  split; [exact Eup|]. split; [exact Edown|].
  eapply int_within_one; [|apply rne_near].
  unfold e, u, eta in *. split; lra.
Qed.

(** C1: with a target selected and a configured width of at most 2^48,
    mapping a point of the configured rectangle to physical
    coordinates and back moves it by at most one unit on each axis. *)
Theorem scale_roundtrip_within_one self t x y :
  selected self t ->
  (self_width self <= 2 ^ 48)%Z ->
  (0 <= x <= self_width self)%Z -> (0 <= y <= self_height self)%Z ->
  exists X Y x' y',
    scale_coordinates self API x y = Ok (X, Y) /\
    scale_coordinates self COMPUTER X Y = Ok (x', y') /\
    (Z.abs (x' - x) <= 1)%Z /\ (Z.abs (y' - y) <= 1)%Z.
Proof.
  intros Hsel HW Hx Hy.
  destruct (selected_shape _ _ (proj2 Hsel)) as (Hin & Hw & HH & H12 & H19).
  assert (Htab : (0 < width t)%Z /\ (0 < height t <= width t)%Z).
  { destruct (table_entries t Hin) as [-> | [-> | ->]]; simpl; lia. }
  destruct (axis_roundtrip (width t) (self_width self) x)
    as (X & x' & Ex1 & Ex2 & Hx'); try lia.
  destruct (axis_roundtrip (height t) (self_height self) y)
    as (Y & y' & Ey1 & Ey2 & Hy'); try lia.
  exists X, Y, x', y'.
  destruct (scale_coordinates_selected self t API x y Hsel) as (_ & _ & ->).
  destruct (scale_coordinates_selected self t COMPUTER X Y Hsel) as (_ & _ & ->).
  replace ((x >? self_width self) || (y >? self_height self))%Z with false
    by (symmetry; apply orb_false_iff; split; rewrite Z.gtb_ltb; apply Z.ltb_ge; lia).
  rewrite Ex1, Ey1, Ex2, Ey2. cbn [bind]. auto.
Qed.

(** Dividing and rounding never raises a [ToolError]. *)
Lemma round_div_not_tool_error n f m :
  bind (int_div_float n f) Py.round <> Raise (ToolError m).
Proof.
  unfold int_div_float, float_of_int.
  destruct (of_exact (inject_Z n)); cbn [bind]; try discriminate.
  destruct (float_is_zero f); cbn [bind]; try discriminate.
  destruct (div (Finite q) f); simpl; discriminate.
Qed.

(** C3: with a target selected, the agent-to-physical map
    raises the bounds error exactly when a component exceeds the
    configured size and both components are of at most 4300 digits; a
    component beyond the size with one of more digits makes the
    formatting of the error message raise [ValueError]; for a
    non-negative in-bounds point and a configured width of at most 2^48
    it returns, on each axis, the integer nearest to the float quotient
    of the component by its scale factor. *)
Theorem scale_up_bounds_and_value self t x y :
  selected self t ->
  ((x > self_width self \/ y > self_height self)%Z ->
   printable x -> printable y ->
   scale_coordinates self API x y
   = Raise (ToolError (Coordinates_are_out_of_bounds (Int x) (Int y)))) /\
  ((x > self_width self \/ y > self_height self)%Z ->
   ~ (printable x /\ printable y) ->
   scale_coordinates self API x y = Raise ValueError) /\
  (forall m, scale_coordinates self API x y = Raise (ToolError m) ->
             (x > self_width self \/ y > self_height self)%Z /\
             printable x /\ printable y /\
             m = Coordinates_are_out_of_bounds (Int x) (Int y)) /\
  ((self_width self <= 2 ^ 48)%Z ->
   (0 <= x <= self_width self)%Z -> (0 <= y <= self_height self)%Z ->
   exists x_scaling_factor y_scaling_factor qx qy,
     int_truediv (width t) (self_width self) = Ok x_scaling_factor /\
     int_truediv (height t) (self_height self) = Ok y_scaling_factor /\
     int_div_float x x_scaling_factor = Ok (Finite qx) /\
     int_div_float y y_scaling_factor = Ok (Finite qy) /\
     scale_coordinates self API x y = Ok (rne qx, rne qy) /\
     Qabs (inject_Z (rne qx) - qx) <= 1 # 2 /\
     Qabs (inject_Z (rne qy) - qy) <= 1 # 2).
Proof.
  intros Hsel.
  destruct (scale_coordinates_selected self t API x y Hsel) as (Efx & Efy & E).
  rewrite E. clear E.
  assert (Hout : (x > self_width self \/ y > self_height self)%Z ->
                 ((x >? self_width self) || (y >? self_height self))%Z = true).
  { intros Hout. apply orb_true_iff.
    destruct Hout; [left | right]; rewrite Z.gtb_ltb; apply Z.ltb_lt; lia. }
  split; [|split; [|split]].
  - intros Ho Px Py. rewrite (Hout Ho).
    apply format_pair_printable; assumption.
  - intros Ho Np. rewrite (Hout Ho).
    apply format_pair_unprintable; assumption.
  - intros m.
    destruct ((x >? self_width self) || (y >? self_height self))%Z eqn:G.
    + intros H.
      assert (Ho : (x > self_width self \/ y > self_height self)%Z).
      { apply orb_true_iff in G.
        destruct G as [G | G]; rewrite Z.gtb_ltb in G; apply Z.ltb_lt in G;
          [left | right]; lia. }
      destruct (str_int_cases x) as [[Px Ex] | [_ Ex]]; rewrite Ex in H;
        cbn [bind] in H; [|discriminate].
      destruct (str_int_cases y) as [[Py Ey] | [_ Ey]]; rewrite Ey in H;
        cbn [bind] in H; [|discriminate].
      injection H as <-. repeat split; assumption.
    + intros H. exfalso.
      destruct (bind (int_div_float x _) Py.round) as [x'|ex] eqn:Ex;
        cbn [bind] in H.
      * destruct (bind (int_div_float y _) Py.round) as [y'|ey] eqn:Ey;
          cbn [bind] in H; [discriminate|].
        injection H as ->. exact (round_div_not_tool_error _ _ _ Ey).
      * injection H as ->. exact (round_div_not_tool_error _ _ _ Ex).
  - intros HW Hx Hy.
    destruct (selected_shape _ _ (proj2 Hsel)) as (Hin & Hw & HH & H12 & H19).
    assert (Htab : (0 < width t)%Z /\ (0 < height t <= width t)%Z).
    { destruct (table_entries t Hin) as [-> | [-> | ->]]; simpl; lia. }
    destruct (axis_up (width t) (self_width self) x)
      as (Dx & Rx & _); try lia.
    destruct (axis_up (height t) (self_height self) y)
      as (Dy & Ry & _); try lia.
    eexists _, _, _, _.
    split; [exact Efx|]. split; [exact Efy|].
    split; [exact Dx|]. split; [exact Dy|].
    split; [|split; apply rne_error].
    replace ((x >? self_width self) || (y >? self_height self))%Z with false
      by (symmetry; apply orb_false_iff; split; rewrite Z.gtb_ltb;
          apply Z.ltb_ge; lia).
    rewrite Rx, Ry. reflexivity.
Qed.

(** The physical-to-agent map sends the configured size to the target
    size, on one axis. *)
Lemma axis_down_to_target tgt dim :
  (0 < tgt <= 2000)%Z -> (tgt <= 2 * dim)%Z -> (dim <= 2 ^ 48)%Z ->
  bind (int_mul_float dim
          (Finite (Binary64.round (inject_Z tgt / inject_Z dim)))) Py.round
  = Ok tgt.
Proof.
  intros Ht Htd Hd.
  destruct (factor_bounds tgt dim) as (Hs & Hst & Hmul & Ht0); try lia.
  set (tq := inject_Z tgt / inject_Z dim) in *.
  set (s := Binary64.round tq) in *.
  assert (HT : 1 <= inject_Z tgt <= 2000).
  { split; [apply (inject_Z_le_lit 1) | apply (inject_Z_le_lit _ 2000)]; lia. }
  assert (HD : 1 <= inject_Z dim <= 281474976710656).
  { split; [apply (inject_Z_le_lit 1) | apply (inject_Z_le_lit _ (2 ^ 48))]; lia. }
  destruct (axis_down dim s tgt (1 # 100)) as [E Hc]; try lia; try lra.
  { unfold u, eta in *. split; nra. }
  rewrite E. f_equal. apply rne_unique. apply Qabs_Qlt_condition.
  split; lra.
Qed.

(** C9: with a target selected and a configured width of at most 2^48
    the advertised size is the target's, which differs from
    the configured one; with no target, or with scaling disabled, it is
    the configured size. *)
Theorem options_report_scaled_size self :
  (forall t, selected self t -> (self_width self <= 2 ^ 48)%Z ->
     options self = Ok {| display_height_px := height t;
                          display_width_px := width t;
                          display_number := display_num self |} /\
     width t <> self_width self) /\
  (_scaling_enabled self = false \/ target_dimension self = Ok None ->
     options self = Ok {| display_height_px := self_height self;
                          display_width_px := self_width self;
                          display_number := display_num self |}).
Proof.
  split.
  - intros t Hsel HW.
    destruct (selected_shape _ _ (proj2 Hsel)) as (Hin & Hw & HH & H12 & H19).
    assert (Htab : (0 < width t <= 2000)%Z /\ (0 < height t <= width t)%Z).
    { destruct (table_entries t Hin) as [-> | [-> | ->]]; simpl; lia. }
    split; [|lia].
    unfold options.
    destruct (scale_coordinates_selected self t COMPUTER
                (self_width self) (self_height self) Hsel) as (_ & _ & ->).
    rewrite !axis_down_to_target by lia. reflexivity.
  - intros H. unfold options, scale_coordinates, scale_coordinates_on.
    destruct (_scaling_enabled self); [|reflexivity].
    destruct H as [H | ->]; [discriminate | reflexivity].
Qed.



(** The scan stops at the first entry that matches. *)
Lemma scan_targets_first ratio w before d rest :
  Forall ratio_defined before ->
  (forall d', In d' before -> aspect_matches ratio d' = false) ->
  aspect_matches ratio d = true ->
  scan_targets ratio w (before ++ d :: rest)
  = Ok (if (width d <? w)%Z then Some d else None).
Proof.
  intros Hdef Hno Hd.
  induction before as [|b before IH]; simpl.
  - unfold aspect_matches in Hd.
    destruct (int_truediv (width d) (height d)); [|discriminate].
    cbn [bind]. now rewrite Hd.
  - inversion Hdef as [|? ? [r Hr] Hdef']; subst.
    assert (Hb : aspect_matches ratio b = false) by (apply Hno; now left).
    unfold aspect_matches in Hb. rewrite Hr in Hb |- *. cbn [bind].
    rewrite Hb. apply IH; [assumption|].
    intros d' Hin. apply Hno. now right.
Qed.

Lemma table_ratios_defined :
  Forall ratio_defined (map snd MAX_SCALING_TARGETS).
Proof.
  repeat constructor; eexists; vm_compute; reflexivity.
Qed.

Lemma Forall_app_l {A} (P : A -> Prop) l1 l2 :
  Forall P (l1 ++ l2) -> Forall P l1.
Proof. intros H. apply Forall_app in H. tauto. Qed.

(** C2: when the first table entry whose aspect ratio matches the
    configured one is not narrower than the configured width, no
    target is selected and both directions return their input. *)
Theorem first_match_not_narrower_gives_identity self ratio before d rest :
  int_truediv (self_width self) (self_height self) = Ok ratio ->
  map snd MAX_SCALING_TARGETS = before ++ d :: rest ->
  (forall d', In d' before -> aspect_matches ratio d' = false) ->
  aspect_matches ratio d = true ->
  (self_width self <= width d)%Z ->
  target_dimension self = Ok None /\
  forall source x y, scale_coordinates self source x y = Ok (x, y).
Proof.
  intros Hr Htab Hno Hd Hw.
  assert (Ht : target_dimension self = Ok None).
  { unfold target_dimension. rewrite Hr. cbn [bind]. rewrite Htab.
    rewrite (scan_targets_first ratio _ before d rest); try assumption.
    - destruct (Z.ltb_spec (width d) (self_width self)); [lia | reflexivity].
    - apply (Forall_app_l _ before (d :: rest)). rewrite <- Htab.
      apply table_ratios_defined. }
  split; [exact Ht|].
  intros source x y. unfold scale_coordinates, scale_coordinates_on. rewrite Ht.
  destruct (_scaling_enabled self); reflexivity.
Qed.

(** The regression case of the design document: a configured shape
    exactly that of a table entry, and not wider than it, selects
    nothing. *)
Lemma exact_ratio_not_wider self d :
  In d (map snd MAX_SCALING_TARGETS) ->
  self_height self <> 0%Z ->
  (self_width self * height d = self_height self * width d)%Z ->
  (self_width self <= width d)%Z ->
  target_dimension self = Ok None /\
  forall source x y, scale_coordinates self source x y = Ok (x, y).
Proof.
  intros Hin HH Eshape Hw.
  assert (Hd : height d <> 0%Z)
    by (destruct (table_entries d Hin) as [-> | [-> | ->]]; simpl; discriminate).
  assert (Ht : target_dimension self = Ok None).
  { unfold target_dimension.
    rewrite (int_truediv_same_ratio _ _ _ _ HH Hd Eshape).
    assert (Hscan : forall r before rest,
              int_truediv (width d) (height d) = Ok r ->
              map snd MAX_SCALING_TARGETS = (before ++ d :: rest)%list ->
              forallb (fun d' => negb (aspect_matches r d')) before = true ->
              aspect_matches r d = true ->
              bind (Ok r) (fun ratio =>
                scan_targets ratio (self_width self) (map snd MAX_SCALING_TARGETS))
              = Ok None).
    { intros r before rest _ Etab Hno Hyes. cbn [bind]. rewrite Etab.
      rewrite scan_targets_first; try assumption.
      - destruct (Z.ltb_spec (width d) (self_width self)); [lia | reflexivity].
      - apply (Forall_app_l _ before (d :: rest)).
        rewrite <- Etab. apply table_ratios_defined.
      - intros d' Hd'. rewrite forallb_forall in Hno.
        apply negb_true_iff. now apply Hno. }
    destruct (table_entries d Hin) as [-> | [-> | ->]].
    - refine (Hscan _ [] [wxga; fwxga] _ eq_refl _ _); vm_compute; reflexivity.
    - refine (Hscan _ [xga] [fwxga] _ eq_refl _ _); vm_compute; reflexivity.
    - refine (Hscan _ [xga; wxga] [] _ eq_refl _ _); vm_compute; reflexivity. }
  split; [exact Ht|].
  intros source x y. unfold scale_coordinates, scale_coordinates_on. rewrite Ht.
  destruct (_scaling_enabled self); reflexivity.
Qed.

(** C7: with scaling disabled both directions are the identity and
    nothing is raised. *)
Theorem scaling_disabled_identity self source x y :
  _scaling_enabled self = false ->
  scale_coordinates self source x y = Ok (x, y).
Proof.
  intros H. unfold scale_coordinates, scale_coordinates_on.
  rewrite H. reflexivity.
Qed.


(** *** The claims at concrete inputs *)

Lemma hd1080_selects_fwxga : selected hd1080 fwxga.
Proof. split; vm_compute; reflexivity. Defined.

(** C1 on the full-HD display, at the centre of the screen. *)
Lemma scale_roundtrip_witness :
  selected hd1080 fwxga /\
  (self_width hd1080 <= 2 ^ 48)%Z /\
  exists X Y x' y',
    scale_coordinates hd1080 API 960 540 = Ok (X, Y) /\
    scale_coordinates hd1080 COMPUTER X Y = Ok (x', y') /\
    (Z.abs (x' - 960) <= 1)%Z /\ (Z.abs (y' - 540) <= 1)%Z.
Proof.
  assert (HW : (self_width hd1080 <= 2 ^ 48)%Z) by (vm_compute; discriminate).
  split; [exact hd1080_selects_fwxga|]. split; [exact HW|].
  apply (scale_roundtrip_within_one hd1080 fwxga 960 540
           hd1080_selects_fwxga HW);
    vm_compute; split; discriminate.
Defined.

(** C1 does not extend to every configuration: on the 2^62 by 3 * 2^60 configuration XGA is
    selected, the in-bounds point (2^60 + 3, 0) is mapped up without
    error, and comes back as (2^60, 0), three units away. *)
Lemma scale_roundtrip_off_by_three :
  selected wide62 xga /\
  (0 <= 2 ^ 60 + 3 <= self_width wide62)%Z /\
  (0 <= 0 <= self_height wide62)%Z /\
  scale_coordinates wide62 API (2 ^ 60 + 3) 0
  = Ok (5192296858534827628530496329220096, 0)%Z /\
  scale_coordinates wide62 COMPUTER 5192296858534827628530496329220096 0
  = Ok (2 ^ 60, 0)%Z /\
  (1 < Z.abs (2 ^ 60 - (2 ^ 60 + 3)))%Z.
Proof.
  repeat split; try (vm_compute; reflexivity); vm_compute; discriminate.
Qed.

(** C2 on a display of exactly the XGA size. *)
Lemma first_match_not_narrower_witness :
  int_truediv (self_width xga_display) (self_height xga_display)
  = Ok (Finite (6004799503160661 # 4503599627370496)) /\
  aspect_matches (Finite (6004799503160661 # 4503599627370496)) xga = true /\
  (self_width xga_display <= width xga)%Z /\
  target_dimension xga_display = Ok None /\
  forall source x y, scale_coordinates xga_display source x y = Ok (x, y).
Proof.
  assert (Hr : int_truediv (self_width xga_display) (self_height xga_display)
               = Ok (Finite (6004799503160661 # 4503599627370496)))
    by (vm_compute; reflexivity).
  assert (Hm : aspect_matches (Finite (6004799503160661 # 4503599627370496)) xga
               = true) by (vm_compute; reflexivity).
  assert (Hw : (self_width xga_display <= width xga)%Z)
    by (vm_compute; discriminate).
  split; [exact Hr|]. split; [exact Hm|]. split; [exact Hw|].
  apply (first_match_not_narrower_gives_identity xga_display _
           [] xga [wxga; fwxga] Hr eq_refl); [|exact Hm|exact Hw].
  intros d' [].
Defined.

(** C3 on the full-HD display: the centre of the screen is scaled,
    a point right of the screen is refused, and one of 4301 digits
    fails in the formatting of the refusal. *)
Lemma scale_up_bounds_and_value_witness :
  selected hd1080 fwxga /\
  scale_coordinates hd1080 API 1921 540
  = Raise (ToolError (Coordinates_are_out_of_bounds (Int 1921) (Int 540))) /\
  scale_coordinates hd1080 API (10 ^ 4300) 540 = Raise ValueError /\
  scale_coordinates hd1080 API 960 540 = Ok (1349, 759)%Z /\
  exists qx qy,
    int_div_float 960 (Finite (1602061742444817 # 2251799813685248))
    = Ok (Finite qx) /\
    int_div_float 540 (Finite (6405119470038039 # 9007199254740992))
    = Ok (Finite qy) /\
    scale_coordinates hd1080 API 960 540 = Ok (rne qx, rne qy) /\
    (Qabs (inject_Z (rne qx) - qx) <= 1 # 2)%Q /\
    (Qabs (inject_Z (rne qy) - qy) <= 1 # 2)%Q.
Proof.
  split; [exact hd1080_selects_fwxga|]. split; [|split; [|split]].
  - apply (proj1 (scale_up_bounds_and_value hd1080 fwxga 1921 540
                    hd1080_selects_fwxga)).
    + left. reflexivity.
    + vm_compute. reflexivity.
    + vm_compute. reflexivity.
  - apply (proj1 (proj2 (scale_up_bounds_and_value hd1080 fwxga (10 ^ 4300) 540
                           hd1080_selects_fwxga))).
    + left. apply limit_beyond. vm_compute. discriminate.
    + intros [Px _]. exact (limit_not_printable Px).
  - vm_compute. reflexivity.
  - destruct (scale_up_bounds_and_value hd1080 fwxga 960 540
                hd1080_selects_fwxga) as (_ & _ & _ & H).
    destruct H as (fx & fy & qx & qy & Ex & Ey & Dx & Dy & E & Rx & Ry).
    + vm_compute. discriminate.
    + vm_compute. split; discriminate.
    + vm_compute. split; discriminate.
    + vm_compute in Ex. injection Ex as <-.
      vm_compute in Ey. injection Ey as <-.
      exists qx, qy. repeat split; assumption.
Defined.

(** C3 does not extend to every configuration: on the 2^1102 by 3 * 2^1100 configuration XGA is
    selected and (0, 0) is in bounds, yet the division by the scale
    factor, which is the float zero, raises [ZeroDivisionError]. *)
Lemma scale_up_divides_by_zero :
  selected astronomic xga /\
  (0 <= self_width astronomic)%Z /\ (0 <= self_height astronomic)%Z /\
  int_truediv (width xga) (self_width astronomic) = Ok (Finite 0) /\
  scale_coordinates astronomic API 0 0 = Raise ZeroDivisionError.
Proof.
  repeat split; try (vm_compute; reflexivity); vm_compute; discriminate.
Qed.

(** C7 on the full-HD display with scaling off. *)
Lemma scaling_disabled_identity_witness :
  _scaling_enabled hd1080_unscaled = false /\
  scale_coordinates hd1080_unscaled API 5000 (-3) = Ok (5000, -3)%Z /\
  scale_coordinates hd1080_unscaled COMPUTER 5000 (-3) = Ok (5000, -3)%Z.
Proof.
  split; [reflexivity|].
  split; apply (scaling_disabled_identity hd1080_unscaled _ 5000 (-3) eq_refl).
Defined.

(** C9 on the full-HD display. *)
Lemma options_report_scaled_size_witness :
  selected hd1080 fwxga /\
  options hd1080 = Ok {| display_height_px := 768;
                         display_width_px := 1366;
                         display_number := Some 1%Z |} /\
  options xga_display = Ok {| display_height_px := 768;
                              display_width_px := 1024;
                              display_number := None |}.
Proof.
  split; [exact hd1080_selects_fwxga|]. split.
  - apply (proj1 (options_report_scaled_size hd1080) fwxga hd1080_selects_fwxga).
    vm_compute. discriminate.
  - apply (proj2 (options_report_scaled_size xga_display)).
    right. vm_compute. reflexivity.
Defined.

(** C9 does not extend to every configuration: on the 2^1102 by 3 * 2^1100 configuration XGA is
    selected, and reading the options raises [OverflowError], the
    width being too large to convert to a float. *)
Lemma options_overflow :
  selected astronomic xga /\ options astronomic = Raise OverflowError.
Proof. repeat split; vm_compute; reflexivity. Qed.

End CoordinateMapper.

(** ** ActionDispatcher: the claims on [__call__] and [chunks] *)

Module ActionDispatcher.

Import Binary64 Py Game Spec FormatFacts.
Local Open Scope string_scope.
Local Open Scope game_scope.

(** *** Substrings *)

Lemma prefix_app a post : prefix a (a ++ post) = true.
Proof.
  induction a as [|c a IH]; simpl; [now destruct post|].
  destruct (ascii_dec c c); [exact IH | contradiction].
Qed.

Lemma str_in_prefix a b : prefix a b = true -> str_in a b = true.
Proof. intros H. destruct b; cbn [str_in]; rewrite H; reflexivity. Qed.

(** [str_in] holds of every contiguous substring. *)
Lemma str_in_substring a pre post : str_in a (pre ++ a ++ post) = true.
Proof.
  induction pre as [|c pre IH]; simpl.
  - apply str_in_prefix, prefix_app.
  - rewrite IH. apply orb_true_r.
Qed.

Lemma prefix_inv a b : prefix a b = true -> exists post, b = a ++ post.
Proof.
  revert b. induction a as [|c a IH]; intros b H.
  - exists b. reflexivity.
  - destruct b as [|c' b]; simpl in H; [discriminate|].
    destruct (ascii_dec c c') as [<- |]; [|discriminate].
    destruct (IH b H) as [post ->]. exists post. reflexivity.
Qed.

(** ... and only of those. *)
Lemma str_in_inv a b :
  str_in a b = true -> exists pre post, b = pre ++ a ++ post.
Proof.
  induction b as [|c b IH]; cbn [str_in]; intros H.
  - rewrite orb_false_r in H. destruct (prefix_inv _ _ H) as [post E].
    exists "", post. exact E.
  - apply orb_true_iff in H. destruct H as [H | H].
    + destruct (prefix_inv _ _ H) as [post E]. exists "", post. exact E.
    + destruct (IH H) as (pre & post & ->). exists (String c pre), post.
      reflexivity.
Qed.

(** C10: every text whose lower-casing is a contiguous substring of
    "wasd" - the four letters, but also "as", "wasd" and the empty
    string - takes the timed branch of [key]: key down, one second,
    key up, on the lower-cased text. *)
Theorem key_hold_branch_for_substrings_of_wasd self w text pre post tr :
  "wasd" = pre ++ lower text ++ post ->
  call self w "key" (Some text) None_ tr
  = (Ok (result_of (Pressed_key text)),
     (tr ++ [keyDown (lower text); sleep 1; keyUp (lower text)])%list).
Proof.
  intros H. unfold call. cbn [action_in in_tuple existsb String.eqb Ascii.eqb Bool.eqb orb].
  rewrite H, str_in_substring.
  unfold mbind, emit, ret. rewrite <- !app_assoc. reflexivity.
Qed.

Lemma lower_char_r c : lower_char c = "r"%char -> c = "r"%char \/ c = "R"%char.
Proof.
  destruct c as [[] [] [] [] [] [] [] []]; vm_compute; intros H;
    try discriminate H; auto.
Qed.

(** C5: [key] with "w" holds w for one second; with "return" in any
    letter case it presses enter; with "up-arrow" it presses up. *)
Theorem key_w_return_up_arrow self w tr :
  call self w "key" (Some "w") None_ tr
  = (Ok (result_of (Pressed_key "w")),
     (tr ++ [keyDown "w"; sleep 1; keyUp "w"])%list) /\
  (forall text, lower text = "return" ->
     call self w "key" (Some text) None_ tr
     = (Ok (result_of (Pressed_key text)), (tr ++ [press "enter"])%list)) /\
  call self w "key" (Some "up-arrow") None_ tr
  = (Ok (result_of (Pressed_key "up-arrow")), (tr ++ [press "up"])%list).
Proof.
  split; [|split].
  - unfold call, mbind, emit, ret. simpl. rewrite <- !app_assoc. reflexivity.
  - intros text H.
    destruct text as [|c text']; [discriminate H|].
    cbn [lower] in H. injection H as Hc Hrest.
    unfold call.
    cbn [action_in in_tuple existsb String.eqb Ascii.eqb Bool.eqb orb].
    cbn [lower]. rewrite Hc, Hrest.
    destruct (lower_char_r c Hc) as [-> | ->];
      unfold mbind, emit, ret; reflexivity.
  - unfold call, mbind, emit, ret. reflexivity.
Qed.

(** The failing input of C4: a game-control action given a text and a
    coordinate is performed, not rejected. *)
Theorem left_down_ignores_text_and_coordinate self w tr :
  call self w "left_down" (Some "attack") (List [Int 10; Int 20]) tr
  = (Ok (result_of (Performed "left_down")), (tr ++ [mouseDown])%list).
Proof. reflexivity. Qed.

(** No game-control action looks at [text] or [coordinate]. *)
Lemma game_control_never_validates self w action text coordinate tr :
  In action game_control_actions ->
  exists e, call self w action text coordinate tr
            = (Ok (result_of (Performed action)), (tr ++ [e])%list).
Proof.
  intros H. simpl in H.
  repeat (destruct H as [<- | H]; [eexists; reflexivity|]).
  contradiction.
Qed.

(** *** Pointer motion *)

(** On ints proper the two forms of [scale_coordinates] agree. *)
Lemma scale_coordinates_of_ints self source a b :
  scale_coordinates_of_values self source (Int a) (Int b)
  = bind (scale_coordinates self source a b)
         (fun xy => Ok (Int (fst xy), Int (snd xy))).
Proof.
  unfold scale_coordinates_of_values, scale_coordinates, scale_coordinates_on.
  cbn [int_value format].
  destruct (_scaling_enabled self); cbn [negb]; [|reflexivity].
  destruct (target_dimension self) as [[t|]|e]; cbn [bind]; try reflexivity.
  destruct (int_truediv (width t) (self_width self)) as [fx|e]; cbn [bind];
    [|reflexivity].
  destruct (int_truediv (height t) (self_height self)) as [fy|e]; cbn [bind];
    [|reflexivity].
  destruct source.
  - destruct (bind (int_mul_float a fx) Py.round) as [x'|e]; cbn [bind];
      [|reflexivity].
    destruct (bind (int_mul_float b fy) Py.round) as [y'|e]; reflexivity.
  - destruct ((a >? self_width self) || (b >? self_height self))%Z.
    + destruct (str_int a); cbn [bind]; [|reflexivity].
      destruct (str_int b); reflexivity.
    + destruct (bind (int_div_float a fx) Py.round) as [x'|e]; cbn [bind];
        [|reflexivity].
      destruct (bind (int_div_float b fy) Py.round) as [y'|e]; reflexivity.
Qed.

(** A refusal that prints the coordinate. *)
Lemma refusal coordinate (m : tool_error) tr :
  (prints coordinate ->
   (lift (format coordinate) ;; raise (ToolError m)) tr
   = (@Raise ToolResult (ToolError m), tr)) /\
  (~ prints coordinate ->
   (lift (format coordinate) ;; raise (ToolError m)) tr
   = (@Raise ToolResult ValueError, tr)).
Proof.
  unfold mbind, lift, raise.
  destruct (format_cases coordinate) as [[P ->] | [N ->]]; split; intros H;
    try reflexivity; contradiction.
Qed.

Lemma component_ok_test c0 c1 :
  component_ok c0 -> component_ok c1 ->
  forallb (fun i => isinstance_int i && (int_value i >=? 0)%Z) [c0; c1] = true.
Proof.
  intros [H0 G0] [H1 G1]. simpl. rewrite H0, H1. simpl.
  rewrite !Z.geb_leb.
  replace (0 <=? int_value c0)%Z with true by (symmetry; apply Z.leb_le; lia).
  replace (0 <=? int_value c1)%Z with true by (symmetry; apply Z.leb_le; lia).
  reflexivity.
Qed.

Lemma component_bad_test c0 c1 :
  ~ (component_ok c0 /\ component_ok c1) ->
  forallb (fun i => isinstance_int i && (int_value i >=? 0)%Z) [c0; c1] = false.
Proof.
  intros H. unfold component_ok in H.
  destruct (forallb _ _) eqn:E; [|reflexivity].
  exfalso. apply H. simpl in E.
  rewrite !andb_true_iff, !Z.geb_leb, !Z.leb_le in E. tauto.
Qed.

(** The pointer-motion branch on a coordinate of the wrong shape or with
    a bad component. *)
Lemma pointer_motion_refusal self w action coordinate tr :
  action_in action ["mouse_move"; "left_click_drag"] = true ->
  coordinate <> None_ ->
  (forall c0 c1, coordinate <> List [c0; c1]) \/
  (exists c0 c1, coordinate = List [c0; c1] /\
                 ~ (component_ok c0 /\ component_ok c1)) ->
  exists m,
    call self w action None coordinate tr
    = (lift (format coordinate) ;; raise (ToolError m)) tr.
Proof.
  intros Hin Hsome Hbad. unfold call. rewrite Hin.
  destruct coordinate as [ | b | n | f | s | items | items ];
    try contradiction; try (eexists; reflexivity).
  destruct items as [|c0 [|c1 [|c2 rest]]]; try (eexists; reflexivity).
  destruct Hbad as [H | H].
  - exfalso. exact (H c0 c1 eq_refl).
  - destruct H as (d0 & d1 & [= -> ->] & Hnok).
    rewrite (component_bad_test _ _ Hnok). eexists. reflexivity.
Qed.

(** The pointer-motion branch on a valid coordinate. *)
Lemma pointer_motion_valid self w action c0 c1 tr :
  action_in action ["mouse_move"; "left_click_drag"] = true ->
  component_ok c0 -> component_ok c1 ->
  call self w action None (List [c0; c1]) tr
  = match scale_coordinates_of_values self API c0 c1 with
    | Ok (x, y) =>
        if String.eqb action "mouse_move"
        then (formatted x y (Moved_mouse_to x y), (tr ++ [moveTo x y])%list)
        else (formatted x y (Dragged_mouse_to x y), (tr ++ [dragTo x y])%list)
    | Raise e => (Raise e, tr)
    end.
Proof.
  intros Hin H0 H1. unfold call. rewrite Hin.
  rewrite (component_ok_test _ _ H0 H1). cbn [negb].
  unfold mbind at 1. unfold lift at 1.
  destruct (scale_coordinates_of_values self API c0 c1) as [[x y]|e];
    [|reflexivity].
  cbn [fst snd]. unfold formatted, mbind, lift, emit, ret.
  destruct (String.eqb action "mouse_move");
    destruct (format x); cbn [bind]; try reflexivity;
    destruct (format y); reflexivity.
Qed.

(** C8: [mouse_move] and [left_click_drag] raise, and touch nothing,
    when the coordinate is missing, comes with a text, is not a list of
    two elements, or has a negative or non-int component, a bool being
    an int.  The exception is a [ToolError], except that the two
    refusals that print the coordinate raise the [ValueError] of the
    formatting when an int inside it has more than 4300 digits.
    Otherwise the pointer is sent to the agent-to-physical image of the
    coordinate, and the message is formatted after that. *)
Theorem pointer_motion_validates_then_scales self w action text coordinate tr :
  action = "mouse_move" \/ action = "left_click_drag" ->
  (coordinate = None_ \/ text <> None ->
   exists m, call self w action text coordinate tr = (Raise (ToolError m), tr)) /\
  (coordinate <> None_ -> text = None ->
   (forall c0 c1, coordinate <> List [c0; c1]) \/
   (exists c0 c1, coordinate = List [c0; c1] /\
                  ~ (component_ok c0 /\ component_ok c1)) ->
   (prints coordinate ->
    exists m, call self w action text coordinate tr = (Raise (ToolError m), tr)) /\
   (~ prints coordinate ->
    call self w action text coordinate tr = (Raise ValueError, tr))) /\
  (forall c0 c1,
     coordinate = List [c0; c1] -> text = None ->
     component_ok c0 -> component_ok c1 ->
     call self w action text coordinate tr
     = match scale_coordinates_of_values self API c0 c1 with
       | Ok (x, y) =>
           if String.eqb action "mouse_move"
           then (formatted x y (Moved_mouse_to x y), (tr ++ [moveTo x y])%list)
           else (formatted x y (Dragged_mouse_to x y), (tr ++ [dragTo x y])%list)
       | Raise e => (Raise e, tr)
       end) /\
  (forall a b,
     coordinate = List [Int a; Int b] -> text = None ->
     (0 <= a)%Z -> (0 <= b)%Z ->
     call self w action text coordinate tr
     = match scale_coordinates self API a b with
       | Ok (x, y) =>
           if String.eqb action "mouse_move"
           then (formatted (Int x) (Int y) (Moved_mouse_to (Int x) (Int y)),
                 (tr ++ [moveTo (Int x) (Int y)])%list)
           else (formatted (Int x) (Int y) (Dragged_mouse_to (Int x) (Int y)),
                 (tr ++ [dragTo (Int x) (Int y)])%list)
       | Raise e => (Raise e, tr)
       end).
Proof.
  intros Hact.
  assert (Hin : action_in action ["mouse_move"; "left_click_drag"] = true).
  { destruct Hact as [-> | ->]; reflexivity. }
  split; [|split; [|split]].
  - intros Hbad. unfold call. rewrite Hin.
    destruct text as [txt|].
    + destruct coordinate as [ | b | n | f | s | items | items ];
        try (eexists; reflexivity).
      destruct items as [|? [|? [|? ?]]]; eexists; reflexivity.
    + destruct Hbad as [-> | H]; [eexists; reflexivity | contradiction].
  - intros Hsome -> Hbad.
    destruct (pointer_motion_refusal self w action coordinate tr Hin Hsome Hbad)
      as [m ->].
    destruct (refusal coordinate m tr) as [Hp Hn].
    split; [intros P; exists m; exact (Hp P) | exact Hn].
  - intros c0 c1 -> -> H0 H1. apply pointer_motion_valid; assumption.
  - intros a b -> -> Ha Hb.
    rewrite pointer_motion_valid; [|exact Hin|split; [reflexivity|exact Ha]
                                   |split; [reflexivity|exact Hb]].
    rewrite scale_coordinates_of_ints.
    destruct (scale_coordinates self API a b) as [[x y]|e]; reflexivity.
Qed.



Lemma substring_0 a s : substring a 0 s = "".
Proof.
  revert a. induction s as [|c s IH]; intros [|a]; simpl; auto.
Qed.

Lemma substring_split s : forall a b c,
  substring a (b + c) s = substring a b s ++ substring (a + b) c s.
Proof.
  induction s as [|ch s IH]; intros a b c.
  - destruct a, b, c; reflexivity.
  - destruct a as [|a].
    + destruct b as [|b]; simpl.
      * destruct c; reflexivity.
      * f_equal. apply (IH 0%nat b c).
    + simpl. apply IH.
Qed.

Lemma substring_all s n : (String.length s <= n)%nat -> substring 0 n s = s.
Proof.
  revert n. induction s as [|c s IH]; intros n H.
  - destruct n; reflexivity.
  - destruct n as [|n]; simpl in *; [lia|]. f_equal. apply IH. lia.
Qed.

Lemma substring_length s : forall a b,
  String.length (substring a b s) = Nat.min b (String.length s - a).
Proof.
  induction s as [|c s IH]; intros a b.
  - destruct a, b; reflexivity.
  - destruct a as [|a].
    + destruct b as [|b]; simpl; [reflexivity|].
      rewrite (IH 0%nat b). simpl. now rewrite Nat.sub_0_r.
    + simpl. apply IH.
Qed.

(** Consecutive slices of width [k] add up to one slice. *)
Lemma join_slices s k m : forall j0,
  join (map (fun i => substring i k s) (map (fun j => j * k)%nat (seq j0 m)))
  = substring (j0 * k) (m * k) s.
Proof.
  induction m as [|m IH]; intros j0; simpl.
  - now rewrite substring_0.
  - rewrite IH, substring_split. do 2 f_equal. lia.
Qed.

Lemma ceil_div_bounds n k : (0 < k)%nat ->
  let m := ((n + k - 1) / k)%nat in
  (n <= m * k)%nat /\ (0 < n -> (m - 1) * k < n)%nat.
Proof.
  intros Hk m.
  pose proof (Nat.div_mod_eq (n + k - 1) k) as E.
  pose proof (Nat.mod_upper_bound (n + k - 1) k ltac:(lia)) as B.
  fold m in E. split; [nia|]. intros Hn.
  assert (1 <= m)%nat by (destruct m; [nia | lia]). nia.
Qed.

(** [chunks]: the pieces, in order, are the text; every piece but the
    last has exactly [k] characters and the last has between 1 and [k]. *)
Theorem chunks_spec s k : (0 < k)%nat ->
  exists pieces,
    chunks s k = Ok pieces /\
    join pieces = s /\
    forall j, (j < List.length pieces)%nat ->
      nth j pieces "" = substring (j * k) k s /\
      (1 <= String.length (nth j pieces "") <= k)%nat /\
      (S j < List.length pieces -> String.length (nth j pieces "") = k)%nat.
Proof.
  intros Hk. unfold chunks, range0.
  destruct k as [|k']; [lia|]. set (k := S k') in *.
  set (m := ((String.length s + k - 1) / k)%nat).
  destruct (ceil_div_bounds (String.length s) k Hk) as [Hhi Hlo]. fold m in Hhi, Hlo.
  eexists. split; [reflexivity|]. split.
  - rewrite join_slices. simpl. apply substring_all. exact Hhi.
  - intros j Hj. rewrite !length_map, length_seq in Hj |- *.
    assert (E : nth j (map (fun i => substring i k s)
                        (map (fun j => (j * k)%nat) (seq 0 m))) ""
                = substring (j * k) k s).
    { rewrite map_map.
      rewrite (nth_indep _ "" ((fun x => substring (x * k) k s) 0%nat))
        by (now rewrite length_map, length_seq).
      rewrite (map_nth (fun x => substring (x * k) k s)).
      now rewrite seq_nth by lia. }
    rewrite E, substring_length. split; [reflexivity|].
    assert (Hpos : (0 < String.length s)%nat).
    { destruct (Nat.eq_dec (String.length s) 0) as [Hz|]; [|lia].
      exfalso. unfold m in Hj. rewrite Hz, Nat.div_small in Hj; lia. }
    specialize (Hlo Hpos). split; [nia | intros; nia].
Qed.

Lemma typing_interval_value :
  int_truediv TYPING_DELAY_MS 1000 = Ok typing_interval /\
  (Qabs ((3458764513820541 # 288230376151711744) - (12 # 1000))
   <= 1 # 1000000000000000000)%Q.
Proof. split; [vm_compute; reflexivity | apply Qle_bool_iff; reflexivity]. Qed.

(** The typing loop writes the pieces in order and cannot fail. *)
Lemma typing_loop pieces : forall tr,
  for_each pieces (fun chunk =>
    mbind (lift (int_truediv TYPING_DELAY_MS 1000)) (fun interval =>
    emit (write chunk interval))) tr
  = (Ok tt, (tr ++ map (fun chunk => write chunk typing_interval) pieces)%list).
Proof.
  induction pieces as [|p pieces IH]; intros tr; cbn [for_each map].
  - unfold ret. now rewrite app_nil_r.
  - unfold mbind at 1. unfold mbind at 1, lift at 1.
    rewrite (proj1 typing_interval_value). unfold emit at 1.
    rewrite IH, <- app_assoc. reflexivity.
Qed.

(** [screenshot]: the two commands it always runs, the third one when
    scaling is on, and what it returns. *)
Lemma screenshot_cases self w tr :
  screenshot self w tr
  = let captured :=
      (tr ++ [run (convert_resize (self_width self) (self_height self));
              run (screencapture (display_num self))])%list in
    let outcome :=
      match screenshot_file w with
      | Some png => Ok {| output := Some (stdout (capture_stdout w));
                          error := Some (capture_stderr w);
                          base64_image := Some png |}
      | None => Raise (ToolError (Failed_to_take_screenshot (capture_stderr w)))
      end in
    if _scaling_enabled self then
      match scale_coordinates self COMPUTER (self_width self) (self_height self)
      with
      | Ok xy => (outcome,
                  (captured ++ [run (convert_resize (fst xy) (snd xy))])%list)
      | Raise e => (Raise e, captured)
      end
    else (outcome, captured).
Proof.
  unfold screenshot, shell, mbind, emit, ret, lift, raise. cbv zeta.
  destruct (_scaling_enabled self).
  - destruct (scale_coordinates self COMPUTER _ _) as [xy|e];
      destruct (screenshot_file w); rewrite <- ?app_assoc; reflexivity.
  - destruct (screenshot_file w); rewrite <- ?app_assoc; reflexivity.
Qed.

(** C6: [type] splits the text into pieces of exactly 50 characters,
    the last one possibly shorter; the pieces concatenate to the text;
    each is written with the 12 ms interval; then the screen is
    captured: the resize and the capture command are run, with scaling
    on a second resize to the mapped size, and the result carries the
    content of the captured file.  No result is returned without that
    image: when the file is missing the call raises, and when the size
    mapping raises its exception leaves after the capture. *)
Theorem type_chunks_and_screenshot self w text tr :
  exists pieces,
    chunks text TYPING_GROUP_SIZE = Ok pieces /\
    join pieces = text /\
    (forall j, (j < List.length pieces)%nat ->
       (1 <= String.length (nth j pieces "") <= 50)%nat /\
       (S j < List.length pieces -> String.length (nth j pieces "") = 50)%nat) /\
    int_truediv TYPING_DELAY_MS 1000 = Ok typing_interval /\
    let captured :=
      (tr ++ map (fun chunk => write chunk typing_interval) pieces
          ++ [run (convert_resize (self_width self) (self_height self));
              run (screencapture (display_num self))])%list in
    let outcome :=
      match screenshot_file w with
      | Some png => Ok {| output := Some (Typed text); error := None;
                          base64_image := Some png |}
      | None => Raise (ToolError (Failed_to_take_screenshot (capture_stderr w)))
      end in
    (_scaling_enabled self = false ->
     call self w "type" (Some text) None_ tr = (outcome, captured)) /\
    (_scaling_enabled self = true ->
     forall x y,
       scale_coordinates self COMPUTER (self_width self) (self_height self)
       = Ok (x, y) ->
       call self w "type" (Some text) None_ tr
       = (outcome, (captured ++ [run (convert_resize x y)])%list)) /\
    (_scaling_enabled self = true ->
     forall e,
       scale_coordinates self COMPUTER (self_width self) (self_height self)
       = Raise e ->
       call self w "type" (Some text) None_ tr = (Raise e, captured)) /\
    (forall res t,
       call self w "type" (Some text) None_ tr = (Ok res, t) ->
       output res = Some (Typed text) /\
       exists png rest,
         screenshot_file w = Some png /\ base64_image res = Some png /\
         t = (captured ++ rest)%list).
Proof.
  destruct (chunks_spec text TYPING_GROUP_SIZE) as (pieces & Ec & Ej & Hp);
    [unfold TYPING_GROUP_SIZE; lia|].
  exists pieces. split; [exact Ec|]. split; [exact Ej|].
  split.
  { intros j Hj. destruct (Hp j Hj) as (_ & H1 & H2). split; assumption. }
  split; [exact (proj1 typing_interval_value)|].
  assert (Ecall : call self w "type" (Some text) None_ tr
    = match screenshot self w
              (tr ++ map (fun chunk => write chunk typing_interval) pieces)%list with
      | (Ok shot, t) => (Ok {| output := Some (Typed text); error := None;
                               base64_image := base64_image shot |}, t)
      | (Raise e, t) => (Raise e, t)
      end).
  { unfold call.
    cbn [action_in in_tuple existsb String.eqb Ascii.eqb Bool.eqb orb].
    unfold mbind at 1. unfold lift at 1. rewrite Ec.
    unfold mbind at 1. rewrite typing_loop.
    unfold mbind at 1.
    destruct (screenshot self w _) as [[shot|e] t]; reflexivity. }
  rewrite Ecall, screenshot_cases. cbv zeta. rewrite <- !app_assoc.
  split; [|split; [|split]].
  - intros ->. destruct (screenshot_file w); reflexivity.
  - intros -> x y ->. cbn [fst snd].
    destruct (screenshot_file w); reflexivity.
  - intros -> e ->. reflexivity.
  - intros res t.
    destruct (_scaling_enabled self);
      [destruct (scale_coordinates self COMPUTER _ _) as [xy|e]|];
      destruct (screenshot_file w) as [png|]; intros [= <- <-];
      (split; [reflexivity|]); exists png; eexists;
      (split; [reflexivity|]); (split; [reflexivity|]);
      try (rewrite app_nil_r; reflexivity); reflexivity.
Qed.


(** *** The claims at concrete inputs *)

(** C5 at "RETURN". *)
Lemma key_w_return_up_arrow_witness :
  lower "RETURN" = "return" /\
  call hd1080 a_world "key" (Some "RETURN") None_ []
  = (Ok (result_of (Pressed_key "RETURN")), [press "enter"]).
Proof.
  split; [reflexivity|].
  apply (proj1 (proj2 (key_w_return_up_arrow hd1080 a_world [])) "RETURN").
  reflexivity.
Defined.

(** C6 on a text of 121 characters: pieces of 50, 50 and 21, then the
    three commands of the capture on the full-HD display. *)
Lemma type_chunks_and_screenshot_witness :
  exists pieces,
    chunks "the quick brown fox jumps over the lazy dog, and then the quick brown fox jumps over the lazy dog a second time, faster.."
           TYPING_GROUP_SIZE = Ok pieces /\
    map String.length pieces = [50; 50; 21]%nat /\
    call hd1080 a_world "type"
      (Some "the quick brown fox jumps over the lazy dog, and then the quick brown fox jumps over the lazy dog a second time, faster..")
      None_ []
    = (Ok {| output := Some (Typed "the quick brown fox jumps over the lazy dog, and then the quick brown fox jumps over the lazy dog a second time, faster..");
             error := None;
             base64_image := Some "iVBORw0KGgo=" |},
       (map (fun chunk => write chunk typing_interval) pieces
        ++ [run (convert_resize 1920 1080); run (screencapture (Some 1%Z));
            run (convert_resize 1366 768)])%list).
Proof.
  destruct (type_chunks_and_screenshot hd1080 a_world
    "the quick brown fox jumps over the lazy dog, and then the quick brown fox jumps over the lazy dog a second time, faster.."
    []) as (pieces & Ec & _ & _ & _ & _ & Hon & _).
  exists pieces. split; [exact Ec|]. split.
  - vm_compute in Ec. injection Ec as <-. reflexivity.
  - rewrite (Hon eq_refl 1366%Z 768%Z); [|vm_compute; reflexivity].
    cbn [app]. rewrite <- app_assoc. reflexivity.
Defined.

(** C8 on the full-HD display: a move to the centre of the screen, a
    move that comes with a text, and a coordinate of three elements. *)
Lemma pointer_motion_witness :
  call hd1080 a_world "mouse_move" None (List [Int 960; Int 540]) []
  = (Ok (result_of (Moved_mouse_to (Int 1349) (Int 759))),
     [moveTo (Int 1349) (Int 759)]) /\
  (exists m, call hd1080 a_world "mouse_move" (Some "x")
                  (List [Int 960; Int 540]) []
             = (Raise (ToolError m), [])) /\
  (exists m, call hd1080 a_world "left_click_drag" None
                  (List [Int 1; Int 2; Int 3]) []
             = (Raise (ToolError m), [])).
Proof.
  split; [|split].
  - rewrite (proj2 (proj2 (proj2
               (pointer_motion_validates_then_scales hd1080 a_world
                  "mouse_move" None (List [Int 960; Int 540]) []
                  (or_introl eq_refl))))
               960%Z 540%Z eq_refl eq_refl);
      [vm_compute; reflexivity | discriminate | discriminate].
  - apply (proj1 (pointer_motion_validates_then_scales hd1080 a_world
               "mouse_move" (Some "x") (List [Int 960; Int 540]) []
               (or_introl eq_refl))).
    right. discriminate.
  - apply (proj1 (proj2 (pointer_motion_validates_then_scales hd1080 a_world
               "left_click_drag" None (List [Int 1; Int 2; Int 3]) []
               (or_intror eq_refl)))).
    + discriminate.
    + reflexivity.
    + left. intros c0 c1. discriminate.
    + repeat constructor; vm_compute; reflexivity.
Defined.

(** C8 does not hold of every coordinate: on a display of the XGA
    size, which is not scaled, the coordinate [True, False] is accepted
    and the pointer primitive receives the two bools; and a coordinate
    of one element, an int of 4301 digits, raises the [ValueError] of
    the formatting, not a [ToolError]. *)
Lemma pointer_motion_bools_and_long_ints :
  call xga_display a_world "mouse_move" None (List [Bool true; Bool false]) []
  = (Ok (result_of (Moved_mouse_to (Bool true) (Bool false))),
     [moveTo (Bool true) (Bool false)]) /\
  (forall c0 c1, List [Int (10 ^ 4300)] <> List [c0; c1]) /\
  call xga_display a_world "mouse_move" None (List [Int (10 ^ 4300)]) []
  = (Raise ValueError, []).
Proof.
  split; [vm_compute; reflexivity|].
  split; [intros c0 c1; discriminate|].
  vm_compute. reflexivity.
Qed.

(** C10 at "AS", "wasd" and the empty text. *)
Lemma key_hold_branch_witness :
  call hd1080 a_world "key" (Some "AS") None_ []
  = (Ok (result_of (Pressed_key "AS")), [keyDown "as"; sleep 1; keyUp "as"]) /\
  call hd1080 a_world "key" (Some "wasd") None_ []
  = (Ok (result_of (Pressed_key "wasd")),
     [keyDown "wasd"; sleep 1; keyUp "wasd"]) /\
  call hd1080 a_world "key" (Some "") None_ []
  = (Ok (result_of (Pressed_key "")), [keyDown ""; sleep 1; keyUp ""]).
Proof.
  split; [|split].
  - apply (key_hold_branch_for_substrings_of_wasd hd1080 a_world "AS" "w" "d" []).
    reflexivity.
  - apply (key_hold_branch_for_substrings_of_wasd hd1080 a_world "wasd" "" "" []).
    reflexivity.
  - apply (key_hold_branch_for_substrings_of_wasd hd1080 a_world "" "" "wasd" []).
    reflexivity.
Defined.

End ActionDispatcher.

(** * Further properties *)

(** ** CoordinateMapper *)

Module MapperExtras.
Import Binary64 Py Game Spec SpecExtra Binary64Facts PyFacts ScaleFacts TargetFacts.
Import FormatFacts.
Local Open Scope Q_scope.

(** An integer quotient raises nothing but the two arithmetic errors, and
    returns a finite float. *)
Lemma int_truediv_cases a b :
  int_truediv a b = Raise ZeroDivisionError \/
  int_truediv a b = Raise OverflowError \/
  exists q, int_truediv a b = Ok (Finite q).
Proof.
  unfold int_truediv. destruct (b =? 0)%Z; [now left|].
  destruct (of_exact _); eauto.
Qed.

Lemma of_exact_not_nan q : of_exact q <> NaN.
Proof. unfold of_exact. destruct (Qle_bool _ _); discriminate. Qed.

(** Scaling one component by a finite factor raises nothing but the two
    arithmetic errors. *)
Lemma round_div_cases n q :
  (exists z, bind (int_div_float n (Finite q)) Py.round = Ok z) \/
  bind (int_div_float n (Finite q)) Py.round = Raise ZeroDivisionError \/
  bind (int_div_float n (Finite q)) Py.round = Raise OverflowError.
Proof.
  unfold int_div_float, float_of_int.
  destruct (of_exact (inject_Z n)) as [a| |] eqn:Ea; cbn [bind]; auto.
  destruct (float_is_zero (Finite q)); cbn [bind]; auto.
  cbn [div]. pose proof (of_exact_not_nan (a / q)).
  destruct (of_exact (a / q)); cbn [Py.round]; eauto. contradiction.
Qed.

Lemma round_mul_cases n q :
  (exists z, bind (int_mul_float n (Finite q)) Py.round = Ok z) \/
  bind (int_mul_float n (Finite q)) Py.round = Raise OverflowError.
Proof.
  unfold int_mul_float, float_of_int.
  destruct (of_exact (inject_Z n)) as [a| |] eqn:Ea; cbn [bind]; auto.
  cbn [mul]. pose proof (of_exact_not_nan (a * q)).
  destruct (of_exact (a * q)); cbn [Py.round]; eauto. contradiction.
Qed.

(** The scan over the table never raises: every entry has a ratio. *)
Lemma scan_table_total ratio w :
  exists o, scan_targets ratio w (map snd MAX_SCALING_TARGETS) = Ok o.
Proof.
  pose proof CoordinateMapper.table_ratios_defined as Hdef.
  induction (map snd MAX_SCALING_TARGETS) as [|d rest IH]; cbn [scan_targets].
  - now exists None.
  - inversion Hdef as [|? ? [r Hr] Hrest]; subst. rewrite Hr. cbn [bind].
    destruct (ltb _ _); [eauto | apply IH; assumption].
Qed.

(** Target selection raises only when the configured ratio cannot be
    computed. *)
Lemma target_dimension_cases self :
  (exists o, target_dimension self = Ok o) \/
  (target_dimension self = Raise ZeroDivisionError /\ self_height self = 0%Z) \/
  target_dimension self = Raise OverflowError.
Proof.
  unfold target_dimension, int_truediv.
  destruct (Z.eqb_spec (self_height self) 0); [auto|].
  destruct (of_exact _) as [q| |]; cbn [bind]; auto.
  left. apply scan_table_total.
Qed.

(** The exceptions of [scale_coordinates], on any int objects. *)
Lemma scale_on_raise_cases {A} (int_of : A -> Z) (object : A -> value)
      (of_int : Z -> A) self source x y e :
  scale_coordinates_on int_of object of_int self source x y = Raise e ->
  e = ZeroDivisionError \/ e = OverflowError \/
  (source = API /\
   (int_of x > self_width self \/ int_of y > self_height self)%Z /\
   ((e = ToolError (Coordinates_are_out_of_bounds (object x) (object y)) /\
     prints (object x) /\ prints (object y)) \/
    (e = ValueError /\ ~ (prints (object x) /\ prints (object y))))).
Proof.
  unfold scale_coordinates_on.
  destruct (_scaling_enabled self); cbn [negb]; [|discriminate].
  destruct (target_dimension_cases self) as [[o Ho] | [[Ho _] | Ho]];
    rewrite Ho; cbn [bind]; try (intros [= <-]; auto).
  destruct o as [t|]; [|discriminate].
  destruct (int_truediv_cases (width t) (self_width self)) as [Ex | [Ex | [fx Ex]]];
    rewrite Ex; cbn [bind]; try (intros [= <-]; auto).
  destruct (int_truediv_cases (height t) (self_height self)) as [Ey | [Ey | [fy Ey]]];
    rewrite Ey; cbn [bind]; try (intros [= <-]; auto).
  destruct source.
  - destruct (round_mul_cases (int_of x) fx) as [[x' Hx] | Hx]; rewrite Hx;
      cbn [bind]; try (intros [= <-]; auto).
    destruct (round_mul_cases (int_of y) fy) as [[y' Hy] | Hy]; rewrite Hy;
      cbn [bind]; try (intros [= <-]; auto).
  - destruct ((int_of x >? self_width self) || (int_of y >? self_height self))%Z
      eqn:G.
    + assert (Hout : (int_of x > self_width self \/ int_of y > self_height self)%Z).
      { apply orb_true_iff in G.
        destruct G as [G | G]; rewrite Z.gtb_ltb in G; apply Z.ltb_lt in G;
          [left | right]; lia. }
      destruct (format_cases (object x)) as [[Px Sx] | [Nx Sx]]; rewrite Sx;
        cbn [bind].
      * destruct (format_cases (object y)) as [[Py Sy] | [Ny Sy]]; rewrite Sy;
          cbn [bind]; intros [= <-]; right; right;
          (split; [reflexivity|]); (split; [exact Hout|]).
        -- left. repeat split; assumption.
        -- right. split; [reflexivity | tauto].
      * intros [= <-]. right. right.
        split; [reflexivity|]. split; [exact Hout|].
        right. split; [reflexivity | tauto].
    + destruct (round_div_cases (int_of x) fx) as [[x' Hx] | [Hx | Hx]];
        rewrite Hx; cbn [bind]; try (intros [= <-]; auto).
      destruct (round_div_cases (int_of y) fy) as [[y' Hy] | [Hy | Hy]];
        rewrite Hy; cbn [bind]; try (intros [= <-]; auto).
Qed.

Lemma prints_Int n : prints (Int n) <-> printable n.
Proof.
  unfold prints. cbn [ints_of]. split.
  - intros H. inversion H. assumption.
  - intros H. repeat constructor. exact H.
Qed.

(** The exceptions of [scale_coordinates] on ints proper. *)
Lemma scale_raise_cases self source x y e :
  scale_coordinates self source x y = Raise e ->
  e = ZeroDivisionError \/ e = OverflowError \/
  (source = API /\ (x > self_width self \/ y > self_height self)%Z /\
   ((e = ToolError (Coordinates_are_out_of_bounds (Int x) (Int y)) /\
     printable x /\ printable y) \/
    (e = ValueError /\ ~ (printable x /\ printable y)))).
Proof.
  intros H. apply scale_on_raise_cases in H. rewrite !prints_Int in H.
  exact H.
Qed.

(** X1: [scale_coordinates] raises a [ToolError] only in the
    agent-to-physical direction, for a component beyond the configured
    size, when both components have at most 4300 digits; with a longer
    component the formatting of that error raises [ValueError] instead.
    Every other exception is a [ZeroDivisionError] or an
    [OverflowError] of the float arithmetic: the rounding never raises a
    [ValueError], and the physical-to-agent direction raises nothing
    but the two arithmetic errors. *)
Theorem scale_coordinates_raises_only self source x y e :
  scale_coordinates self source x y = Raise e ->
  e = ZeroDivisionError \/ e = OverflowError \/
  (source = API /\ (x > self_width self \/ y > self_height self)%Z /\
   ((e = ToolError (Coordinates_are_out_of_bounds (Int x) (Int y)) /\
     printable x /\ printable y) \/
    (e = ValueError /\ ~ (printable x /\ printable y)))).
Proof. apply scale_raise_cases. Qed.

Lemma identity_without_target self :
  target_dimension self = Ok None ->
  forall source x y, scale_coordinates self source x y = Ok (x, y).
Proof.
  intros Ht source x y. unfold scale_coordinates, scale_coordinates_on.
  rewrite Ht.
  destruct (_scaling_enabled self); reflexivity.
Qed.

Lemma quotient_le_1 a b : (0 < a <= b)%Z ->
  Qabs (inject_Z a / inject_Z b) <= 1.
Proof.
  intros H.
  assert (Ha : 1 <= inject_Z a) by (apply (inject_Z_le_lit 1); lia).
  assert (Hab : inject_Z a <= inject_Z b) by (apply inject_Z_le_lit; lia).
  rewrite Qabs_pos.
  - apply Qle_shift_div_r; lra.
  - apply Qle_shift_div_l; lra.
Qed.

Lemma one_le_pow2_1023 q : q <= 2000 -> q <= pow2 1023.
Proof. intros H. apply lit_le_pow2_1023. lra. Qed.

(** Target selection returns whenever the configured ratio is a float. *)
Lemma target_dimension_total self :
  self_height self <> 0%Z ->
  Qabs (inject_Z (self_width self) / inject_Z (self_height self)) <= 2000 ->
  exists o, target_dimension self = Ok o.
Proof.
  intros HH Hq. unfold target_dimension.
  rewrite (int_truediv_ok _ _ HH (one_le_pow2_1023 _ Hq)).
  apply scan_table_total.
Qed.

(** X2: a portrait or square configuration is never scaled. *)
Theorem portrait_is_never_scaled self :
  (0 < self_width self <= self_height self)%Z ->
  target_dimension self = Ok None /\
  forall source x y, scale_coordinates self source x y = Ok (x, y).
Proof.
  intros H.
  assert (Ht : target_dimension self = Ok None).
  { destruct (target_dimension_total self) as [o Ho]; [lia| |].
    - eapply Qle_trans; [apply quotient_le_1; exact H|]. discriminate.
    - destruct o as [t|]; [|exact Ho].
      destruct (selected_shape self t Ho) as (_ & _ & _ & H12 & _). lia. }
  split; [exact Ht | apply identity_without_target; exact Ht].
Qed.

(** X3: a configuration no wider than the narrowest table entry is never
    scaled. *)
Theorem narrow_is_never_scaled self :
  (Z.abs (self_width self) <= 1024)%Z -> self_height self <> 0%Z ->
  target_dimension self = Ok None /\
  forall source x y, scale_coordinates self source x y = Ok (x, y).
Proof.
  intros HW HH.
  assert (Ht : target_dimension self = Ok None).
  { destruct (target_dimension_total self) as [o Ho]; [exact HH| |].
    - eapply Qle_trans; [apply quotient_le; exact HH|].
      apply (inject_Z_le_lit _ 2000). lia.
    - destruct o as [t|]; [|exact Ho].
      destruct (selected_shape self t Ho) as (Hin & Hw & _).
      destruct (table_entries t Hin) as [-> | [-> | ->]]; simpl in Hw; lia. }
  split; [exact Ht | apply identity_without_target; exact Ht].
Qed.

(** One axis of the agent-to-physical map on the advertised range: the
    image stays on the configured axis and the end points correspond. *)
Lemma axis_up_onto tgt dim n :
  (0 < tgt)%Z -> (tgt <= 2 * dim)%Z -> (dim <= 2 ^ 48)%Z ->
  (0 <= n <= tgt)%Z -> (n <= dim)%Z ->
  let f := Finite (Binary64.round (inject_Z tgt / inject_Z dim)) in
  exists X, bind (int_div_float n f) Py.round = Ok X /\
            (0 <= X <= dim)%Z /\
            (n = 0%Z -> X = 0%Z) /\ (n = tgt -> X = dim).
Proof.
  intros Ht Htd Hd Hn Hnd f. unfold f.
  destruct (factor_bounds tgt dim Ht Htd Hd) as (Hs & Hst & Hmul & Ht0).
  destruct (axis_up tgt dim n Ht Htd Hd) as (_ & Eup & HX0 & _ & HXs); [lia|].
  set (t := inject_Z tgt / inject_Z dim) in *.
  set (s := Binary64.round t) in *.
  set (X := rne (Binary64.round (Binary64.round (inject_Z n) / s))) in *.
  exists X. split; [exact Eup|].
  assert (HT : 1 <= inject_Z tgt) by (apply (inject_Z_le_lit 1); lia).
  assert (HD : 1 <= inject_Z dim <= 281474976710656).
  { split; [apply (inject_Z_le_lit 1) | apply (inject_Z_le_lit _ (2 ^ 48))]; lia. }
  assert (HN : 0 <= inject_Z n <= inject_Z tgt).
  { split; [apply (inject_Z_le_lit 0) | apply inject_Z_le_lit]; lia. }
  assert (HTD : inject_Z tgt * inject_Z dim <= inject_Z tgt * 281474976710656).
  { apply Qmult_le_l; lra. }
  assert (HDD : inject_Z dim * inject_Z dim <= 281474976710656 * 281474976710656).
  { apply Qmult_le_compat_nonneg; split; lra. }
  assert (HsD : s * inject_Z dim <= (201 # 100) * 281474976710656).
  { apply Qmult_le_compat_nonneg; split; lra. }
  assert (P1 : inject_Z tgt - (u * inject_Z tgt + eta * inject_Z dim)
               <= inject_Z dim * s
               <= inject_Z tgt + (u * inject_Z tgt + eta * inject_Z dim)).
  { unfold u, eta in *. split; nra. }
  (* the half-width of a step is more than the accumulated error *)
  assert (Gap : 2 * u * inject_Z tgt + eta * (s + inject_Z dim) < s * (1 # 2)).
  { apply Qnot_le_lt. intros Hc.
    assert (Hc' : s * (1 # 2) * inject_Z dim
                  <= (2 * u * inject_Z tgt + eta * (s + inject_Z dim)) * inject_Z dim).
    { apply Qmult_le_compat_r; lra. }
    unfold u, eta in *. nra. }
  assert (Hhi : (X <= dim)%Z).
  { destruct (Z_le_gt_dec X dim) as [|Hgt]; [assumption|]. exfalso.
    assert (HXD : inject_Z dim + 1 <= inject_Z X).
    { change 1 with (inject_Z 1). rewrite <- inject_Z_plus.
      apply inject_Z_le_lit. lia. }
    assert (inject_Z dim * s + s <= inject_Z X * s) by nra.
    unfold u, eta in *. lra. }
  split; [lia|]. split.
  - intros ->. change (inject_Z 0) with 0 in HXs.
    destruct (Z_le_gt_dec X 0) as [|Hgt]; [lia|]. exfalso.
    assert (HX1 : 1 <= inject_Z X) by (apply (inject_Z_le_lit 1); lia).
    assert (s <= inject_Z X * s) by nra.
    unfold u, eta in *. lra.
  - intros ->.
    destruct (Z_le_gt_dec dim X) as [|Hlt]; [lia|]. exfalso.
    assert (HXD : inject_Z X + 1 <= inject_Z dim).
    { change 1 with (inject_Z 1). rewrite <- inject_Z_plus.
      apply inject_Z_le_lit. lia. }
    assert (inject_Z X * s + s <= inject_Z dim * s) by nra.
    unfold u, eta in *. lra.
Qed.

(** One axis of the physical-to-agent map on the configured range: the
    image stays in the advertised range. *)
Lemma axis_down_into tgt dim p :
  (0 < tgt)%Z -> (tgt <= 2 * dim)%Z -> (dim <= 2 ^ 48)%Z ->
  (0 <= p <= dim)%Z ->
  let f := Finite (Binary64.round (inject_Z tgt / inject_Z dim)) in
  exists r, bind (int_mul_float p f) Py.round = Ok r /\ (0 <= r <= tgt)%Z.
Proof.
  intros Ht Htd Hd Hp f. unfold f.
  destruct (factor_bounds tgt dim Ht Htd Hd) as (Hs & Hst & Hmul & Ht0).
  set (t := inject_Z tgt / inject_Z dim) in *.
  set (s := Binary64.round t) in *.
  assert (HT : 1 <= inject_Z tgt <= 562949953421312).
  { split; [apply (inject_Z_le_lit 1) | apply (inject_Z_le_lit _ (2 ^ 49))]; lia. }
  assert (HD : 1 <= inject_Z dim <= 281474976710656).
  { split; [apply (inject_Z_le_lit 1) | apply (inject_Z_le_lit _ (2 ^ 48))]; lia. }
  assert (HP : 0 <= inject_Z p <= inject_Z dim).
  { split; [apply (inject_Z_le_lit 0) | apply inject_Z_le_lit]; lia. }
  assert (Ha : Binary64.round (inject_Z p) == inject_Z p) by (apply round_int; lia).
  assert (P1 : inject_Z dim * s <= inject_Z tgt + (u * inject_Z tgt + eta * inject_Z dim)).
  { unfold u, eta in *. nra. }
  assert (Hprod : - (inject_Z tgt + 1) <= Binary64.round (inject_Z p) * s
                  <= inject_Z tgt + 1).
  { rewrite Ha. unfold u, eta in *. split; nra. }
  pose proof (round_within _ _ (abs_le _ _ Hprod)) as Hc.
  set (c := Binary64.round (Binary64.round (inject_Z p) * s)) in *.
  exists (rne c). split.
  - unfold int_mul_float.
    rewrite float_of_int_ok by (apply lit_le_pow2_1023; rewrite Qabs_pos; lra).
    cbn [bind mul]. rewrite of_exact_finite; [reflexivity|].
    apply lit_le_pow2_1023. eapply Qle_trans; [apply (abs_le _ _ Hprod)|]. lra.
  - pose proof (rne_near c) as Hr. rewrite Ha in Hc.
    assert (Hps : 0 <= inject_Z p * s) by nra.
    assert (Hps2 : inject_Z p * s <= inject_Z dim * s) by nra.
    assert (H1 : inject_Z (rne c) < inject_Z (tgt + 1)).
    { rewrite inject_Z_plus. change (inject_Z 1) with 1. unfold u, eta in *. lra. }
    assert (H2 : inject_Z (-1) < inject_Z (rne c)).
    { change (inject_Z (-1)) with (-1 # 1). unfold u, eta in *. lra. }
    rewrite <- Zlt_Qlt in H1, H2. lia.
Qed.

(** The outcome of the scan when the configured ratio is the float [r]
    of the entry [d] and the entries before [d] do not match it. *)
Lemma scan_at_entry self r before d rest :
  map snd MAX_SCALING_TARGETS = (before ++ d :: rest)%list ->
  forallb (fun d' => negb (aspect_matches r d')) before = true ->
  aspect_matches r d = true ->
  scan_targets r (self_width self) (map snd MAX_SCALING_TARGETS)
  = Ok (if (width d <? self_width self)%Z then Some d else None).
Proof.
  intros Etab Hno Hyes. rewrite Etab.
  apply CoordinateMapper.scan_targets_first; try assumption.
  - apply (CoordinateMapper.Forall_app_l _ before (d :: rest)).
    rewrite <- Etab. apply CoordinateMapper.table_ratios_defined.
  - intros d' Hd'. rewrite forallb_forall in Hno.
    apply negb_true_iff. now apply Hno.
Qed.

(** X4: a configuration with exactly the shape of a table entry and wider
    than it selects that entry. *)
Theorem exact_shape_selects_entry self d :
  In d (map snd MAX_SCALING_TARGETS) ->
  (self_width self * height d = self_height self * width d)%Z ->
  (width d < self_width self)%Z ->
  target_dimension self = Ok (Some d).
Proof.
  intros Hin Eshape Hw.
  assert (Hd : (height d <> 0 /\ 0 < width d)%Z)
    by (destruct (table_entries d Hin) as [-> | [-> | ->]]; simpl; lia).
  assert (HH : self_height self <> 0%Z) by nia.
  unfold target_dimension.
  rewrite (int_truediv_same_ratio _ _ _ _ HH (proj1 Hd) Eshape).
  assert (Hgo : forall r before rest,
            int_truediv (width d) (height d) = Ok r ->
            map snd MAX_SCALING_TARGETS = (before ++ d :: rest)%list ->
            forallb (fun d' => negb (aspect_matches r d')) before = true ->
            aspect_matches r d = true ->
            bind (int_truediv (width d) (height d)) (fun ratio =>
              scan_targets ratio (self_width self) (map snd MAX_SCALING_TARGETS))
            = Ok (Some d)).
  { intros r before rest Er Etab Hno Hyes. rewrite Er. cbn [bind].
    rewrite (scan_at_entry self r before d rest Etab Hno Hyes).
    destruct (Z.ltb_spec (width d) (self_width self)); [reflexivity | lia]. }
  destruct (table_entries d Hin) as [-> | [-> | ->]].
  - apply (Hgo (Finite (6004799503160661 # 4503599627370496)) [] [wxga; fwxga]);
      vm_compute; reflexivity.
  - apply (Hgo (Finite (3602879701896397 # 2251799813685248)) [xga] [fwxga]);
      vm_compute; reflexivity.
  - apply (Hgo (Finite (8010308712224085 # 4503599627370496)) [xga; wxga] []);
      vm_compute; reflexivity.
Qed.

(** X5: every 16:9 configuration is matched with FWXGA: it is scaled to
    1366x768 when wider than 1366 and left alone otherwise. *)
Theorem sixteen_by_nine_uses_fwxga self :
  self_height self <> 0%Z ->
  (9 * self_width self = 16 * self_height self)%Z ->
  target_dimension self
  = Ok (if (1366 <? self_width self)%Z then Some fwxga else None).
Proof.
  intros HH Eshape.
  unfold target_dimension.
  assert (E9 : (self_width self * 9 = self_height self * 16)%Z) by lia.
  assert (N9 : 9%Z <> 0%Z) by discriminate.
  rewrite (int_truediv_same_ratio _ _ 16 9 HH N9 E9).
  replace (int_truediv 16 9) with (Ok (Finite (2001599834386887 # 1125899906842624)))
    by (vm_compute; reflexivity).
  cbn [bind].
  apply (scan_at_entry self _ [xga; wxga] fwxga []); vm_compute; reflexivity.
Qed.

(** X6: with a target selected and a configured width of at most 2^48,
    the agent-to-physical map sends the advertised rectangle into the
    configured one, the origin to the origin and the advertised right
    and bottom edges to the configured ones.  The bounds test compares
    [y] with the configured height, hence the hypothesis on it. *)
Theorem advertised_rectangle_maps_onto_screen self t x y :
  selected self t ->
  (self_width self <= 2 ^ 48)%Z ->
  (0 <= x <= width t)%Z -> (0 <= y <= height t)%Z ->
  (y <= self_height self)%Z ->
  exists X Y,
    scale_coordinates self API x y = Ok (X, Y) /\
    (0 <= X <= self_width self)%Z /\ (0 <= Y <= self_height self)%Z /\
    (x = 0%Z -> X = 0%Z) /\ (y = 0%Z -> Y = 0%Z) /\
    (x = width t -> X = self_width self) /\
    (y = height t -> Y = self_height self).
Proof.
  intros Hsel HW Hx Hy HyH.
  destruct (selected_shape _ _ (proj2 Hsel)) as (Hin & Hw & HH & H12 & H19).
  assert (Htab : (0 < width t)%Z /\ (0 < height t <= width t)%Z).
  { destruct (table_entries t Hin) as [-> | [-> | ->]]; simpl; lia. }
  destruct (axis_up_onto (width t) (self_width self) x)
    as (X & Ex & HX & HX0 & HX1); try lia.
  destruct (axis_up_onto (height t) (self_height self) y)
    as (Y & Ey & HY & HY0 & HY1); try lia.
  exists X, Y.
  destruct (scale_coordinates_selected self t API x y Hsel) as (_ & _ & ->).
  replace ((x >? self_width self) || (y >? self_height self))%Z with false
    by (symmetry; apply orb_false_iff; split; rewrite Z.gtb_ltb;
        apply Z.ltb_ge; lia).
  rewrite Ex, Ey. cbn [bind]. repeat split; try assumption; lia.
Qed.

(** With a target selected and a configured width of at most 2^48, the
    physical-to-agent map sends every point of the configured rectangle
    into the advertised one. *)
Lemma scale_down_range self t px py :
  selected self t ->
  (self_width self <= 2 ^ 48)%Z ->
  (0 <= px <= self_width self)%Z -> (0 <= py <= self_height self)%Z ->
  exists x y,
    scale_coordinates self COMPUTER px py = Ok (x, y) /\
    (0 <= x <= width t)%Z /\ (0 <= y <= height t)%Z.
Proof.
  intros Hsel HW Hx Hy.
  destruct (selected_shape _ _ (proj2 Hsel)) as (Hin & Hw & HH & H12 & H19).
  assert (Htab : (0 < width t)%Z /\ (0 < height t <= width t)%Z).
  { destruct (table_entries t Hin) as [-> | [-> | ->]]; simpl; lia. }
  destruct (axis_down_into (width t) (self_width self) px)
    as (x & Ex & HX); try lia.
  destruct (axis_down_into (height t) (self_height self) py)
    as (y & Ey & HY); try lia.
  exists x, y.
  destruct (scale_coordinates_selected self t COMPUTER px py Hsel) as (_ & _ & ->).
  rewrite Ex, Ey. cbn [bind]. auto.
Qed.


(** *** The properties at concrete inputs *)

Lemma scale_coordinates_raises_only_witness :
  scale_coordinates hd1080 API 1921 540
  = Raise (ToolError (Coordinates_are_out_of_bounds (Int 1921) (Int 540))) /\
  (1921 > self_width hd1080 \/ 540 > self_height hd1080)%Z /\
  printable 1921 /\ printable 540.
Proof.
  assert (E : scale_coordinates hd1080 API 1921 540
              = Raise (ToolError
                         (Coordinates_are_out_of_bounds (Int 1921) (Int 540))))
    by (vm_compute; reflexivity).
  split; [exact E|].
  destruct (scale_coordinates_raises_only hd1080 API 1921 540 _ E)
    as [H | [H | (_ & Ho & [(_ & Px & Py) | (H & _)])]];
    try discriminate H.
  split; [exact Ho|]. split; assumption.
Defined.

Lemma portrait_is_never_scaled_witness :
  (0 < self_width portrait_display <= self_height portrait_display)%Z /\
  target_dimension portrait_display = Ok None /\
  scale_coordinates portrait_display API 540 960 = Ok (540, 960)%Z.
Proof.
  assert (H : (0 < self_width portrait_display <= self_height portrait_display)%Z)
    by (vm_compute; split; [reflexivity | discriminate]).
  split; [exact H|].
  destruct (portrait_is_never_scaled portrait_display H) as [Ht Hid].
  split; [exact Ht | apply Hid].
Defined.

Lemma narrow_is_never_scaled_witness :
  (Z.abs (self_width xga_display) <= 1024)%Z /\
  target_dimension xga_display = Ok None /\
  scale_coordinates xga_display COMPUTER 512 384 = Ok (512, 384)%Z.
Proof.
  assert (H : (Z.abs (self_width xga_display) <= 1024)%Z)
    by (vm_compute; discriminate).
  split; [exact H|].
  destruct (narrow_is_never_scaled xga_display H) as [Ht Hid].
  - vm_compute. discriminate.
  - split; [exact Ht | apply Hid].
Defined.

Lemma exact_shape_selects_entry_witness :
  (self_width wide62 * height xga = self_height wide62 * width xga)%Z /\
  target_dimension wide62 = Ok (Some xga).
Proof.
  assert (E : (self_width wide62 * height xga = self_height wide62 * width xga)%Z)
    by (vm_compute; reflexivity).
  split; [exact E|].
  apply (exact_shape_selects_entry wide62 xga); [simpl; auto | exact E|].
  vm_compute. reflexivity.
Defined.

Lemma sixteen_by_nine_uses_fwxga_witness :
  target_dimension hd1080 = Ok (Some fwxga) /\
  target_dimension hd720 = Ok None.
Proof.
  split.
  - rewrite (sixteen_by_nine_uses_fwxga hd1080); [reflexivity| |reflexivity].
    vm_compute. discriminate.
  - rewrite (sixteen_by_nine_uses_fwxga hd720); [reflexivity| |reflexivity].
    vm_compute. discriminate.
Defined.

Lemma advertised_rectangle_witness :
  selected hd1080 fwxga /\
  scale_coordinates hd1080 API 1366 768 = Ok (1920, 1080)%Z /\
  scale_coordinates hd1080 API 0 0 = Ok (0, 0)%Z.
Proof.
  split; [exact CoordinateMapper.hd1080_selects_fwxga|].
  assert (HW : (self_width hd1080 <= 2 ^ 48)%Z) by (vm_compute; discriminate).
  assert (Hx : (0 <= 1366 <= width fwxga)%Z) by (vm_compute; split; discriminate).
  assert (Hy : (0 <= 768 <= height fwxga)%Z) by (vm_compute; split; discriminate).
  assert (HyH : (768 <= self_height hd1080)%Z) by (vm_compute; discriminate).
  assert (H0x : (0 <= 0 <= width fwxga)%Z) by (vm_compute; split; discriminate).
  assert (H0y : (0 <= 0 <= height fwxga)%Z) by (vm_compute; split; discriminate).
  assert (H0H : (0 <= self_height hd1080)%Z) by (vm_compute; discriminate).
  split.
  - destruct (advertised_rectangle_maps_onto_screen hd1080 fwxga 1366 768
                CoordinateMapper.hd1080_selects_fwxga HW Hx Hy HyH)
      as (X & Y & E & _ & _ & _ & _ & HX & HY).
    rewrite E, (HX eq_refl), (HY eq_refl). reflexivity.
  - destruct (advertised_rectangle_maps_onto_screen hd1080 fwxga 0 0
                CoordinateMapper.hd1080_selects_fwxga HW H0x H0y H0H)
      as (X & Y & E & _ & _ & HX & HY & _).
    rewrite E, (HX eq_refl), (HY eq_refl). reflexivity.
Defined.

End MapperExtras.

(** ** ActionDispatcher *)

Module DispatcherExtras.
Import Binary64 Py Game Spec SpecExtra FormatFacts.
Local Open Scope string_scope.
Local Open Scope game_scope.

Lemma in_tuple_true s items : in_tuple s items = true <-> In s items.
Proof.
  unfold in_tuple. rewrite existsb_exists. split.
  - intros (x & Hin & E). apply String.eqb_eq in E. now subst.
  - intros H. exists s. split; [exact H | apply String.eqb_refl].
Qed.

(** X7: [key] and [type] are refused, before anything is done, when the
    text is missing or a coordinate comes with it. *)
Theorem key_and_type_validate self w action text coordinate tr :
  action = "key" \/ action = "type" ->
  text = None \/ coordinate <> None_ ->
  exists m, call self w action text coordinate tr = (Raise (ToolError m), tr).
Proof.
  intros Hact Hbad. unfold call.
  assert (H1 : action_in action ["mouse_move"; "left_click_drag"] = false)
    by (destruct Hact as [-> | ->]; reflexivity).
  assert (H2 : action_in action ["key"; "type"] = true)
    by (destruct Hact as [-> | ->]; reflexivity).
  rewrite H1, H2.
  destruct text as [txt|]; [|eexists; reflexivity].
  destruct Hbad as [Hbad | Hbad]; [discriminate|].
  destruct coordinate; try (eexists; reflexivity). contradiction.
Qed.

(** X8: the clicks, [screenshot] and [cursor_position] are refused, before
    anything is done, when a text or a coordinate is given. *)
Theorem click_and_capture_validate self w action text coordinate tr :
  In action click_and_capture_actions ->
  text <> None \/ coordinate <> None_ ->
  exists m, call self w action text coordinate tr = (Raise (ToolError m), tr).
Proof.
  intros Hact Hbad. unfold call.
  assert (H : action_in action ["mouse_move"; "left_click_drag"] = false /\
              action_in action ["key"; "type"] = false /\
              action_in action click_and_capture_actions = true).
  { simpl in Hact. repeat (destruct Hact as [<- | Hact]; [repeat split|]).
    contradiction. }
  destruct H as (H1 & H2 & H3). unfold click_and_capture_actions in H3.
  rewrite H1, H2, H3.
  destruct text as [txt|]; [eexists; reflexivity|].
  destruct Hbad as [Hbad | Hbad]; [contradiction|].
  destruct coordinate; try (eexists; reflexivity). contradiction.
Qed.

Lemma hold_arrow_not_other suffix :
  action_in ("hold_arrow_" ++ suffix) ["mouse_move"; "left_click_drag"] = false /\
  action_in ("hold_arrow_" ++ suffix) ["key"; "type"] = false /\
  action_in ("hold_arrow_" ++ suffix) click_and_capture_actions = false.
Proof. repeat split. Qed.

Lemma release_arrow_not_other suffix :
  action_in ("release_arrow_" ++ suffix) ["mouse_move"; "left_click_drag"] = false /\
  action_in ("release_arrow_" ++ suffix) ["key"; "type"] = false /\
  action_in ("release_arrow_" ++ suffix) click_and_capture_actions = false.
Proof. repeat split. Qed.

(** X9: any action name that starts with [hold_arrow_] or [release_arrow_]
    is accepted, with any text and coordinate: the key held or released
    is what follows the last underscore, whether or not it names an
    arrow. *)
Theorem arrow_prefix_accepts_any_suffix self w suffix text coordinate tr :
  call self w ("hold_arrow_" ++ suffix) text coordinate tr
  = (Ok (result_of (Performed ("hold_arrow_" ++ suffix))),
     (tr ++ [keyDown (split_last "_" suffix)])%list) /\
  call self w ("release_arrow_" ++ suffix) text coordinate tr
  = (Ok (result_of (Performed ("release_arrow_" ++ suffix))),
     (tr ++ [keyUp (split_last "_" suffix)])%list).
Proof.
  split.
  - unfold call.
    destruct (hold_arrow_not_other suffix) as (H1 & H2 & H3).
    unfold click_and_capture_actions in H3. rewrite H1, H2, H3.
    rewrite ActionDispatcher.prefix_app. unfold split_last. simpl.
    reflexivity.
  - unfold call.
    destruct (release_arrow_not_other suffix) as (H1 & H2 & H3).
    unfold click_and_capture_actions in H3. rewrite H1, H2, H3.
    rewrite ActionDispatcher.prefix_app. unfold split_last. simpl.
    reflexivity.
Qed.

(** The class of an action name, as the three membership tests of
    [__call__] see it. *)
Lemma action_class action :
  (action = "mouse_move" \/ action = "left_click_drag") \/
  action = "key" \/ action = "type" \/
  In action click_and_capture_actions \/
  (action_in action ["mouse_move"; "left_click_drag"] = false /\
   action_in action ["key"; "type"] = false /\
   action_in action click_and_capture_actions = false).
Proof.
  destruct (action_in action ["mouse_move"; "left_click_drag"]) eqn:H1.
  { left. apply in_tuple_true in H1. simpl in H1. intuition congruence. }
  destruct (action_in action ["key"; "type"]) eqn:H2.
  { apply in_tuple_true in H2. simpl in H2. intuition. }
  destruct (action_in action click_and_capture_actions) eqn:H3.
  { apply in_tuple_true in H3. intuition. }
  intuition.
Qed.

(** The outcome of [key]. *)
Lemma key_outcome self w text tr :
  exists k,
    call self w "key" (Some text) None_ tr
    = (Ok (result_of (Pressed_key text)),
       (tr ++ [keyDown k; sleep 1; keyUp k])%list) \/
    call self w "key" (Some text) None_ tr
    = (Ok (result_of (Pressed_key text)), (tr ++ [press k])%list).
Proof.
  unfold call.
  cbn [action_in in_tuple existsb String.eqb Ascii.eqb Bool.eqb orb].
  unfold mbind, emit, ret.
  destruct (str_in (lower text) "wasd").
  { exists (lower text). left. rewrite <- !app_assoc. reflexivity. }
  destruct (str_in (lower text) "abcdefghijklmnopqrstuvwxyz"); [eauto|].
  destruct (str_in text "1234567890"); [eauto|].
  destruct (String.eqb (lower text) "return"); [eauto|].
  match goal with
  | |- context [if ?b then _ else _] => destruct b
  end; eauto.
Qed.

(** X10: [key] with a text and no coordinate never fails: it reports
    [Pressed key] and makes either one press, or a key down, a
    one-second sleep and a key up on the same key. *)
Theorem key_always_presses self w text tr :
  exists k,
    call self w "key" (Some text) None_ tr
    = (Ok (result_of (Pressed_key text)),
       (tr ++ [keyDown k; sleep 1; keyUp k])%list) \/
    call self w "key" (Some text) None_ tr
    = (Ok (result_of (Pressed_key text)), (tr ++ [press k])%list).
Proof. apply key_outcome. Qed.

(** [type] runs the typing loop and then the screenshot. *)
Lemma call_type_eq self w text tr :
  exists pieces,
    chunks text TYPING_GROUP_SIZE = Ok pieces /\
    call self w "type" (Some text) None_ tr
    = match screenshot self w
              (tr ++ map (fun chunk => write chunk typing_interval) pieces)%list with
      | (Ok shot, t) => (Ok {| output := Some (Typed text); error := None;
                               base64_image := base64_image shot |}, t)
      | (Raise e, t) => (Raise e, t)
      end.
Proof.
  eexists. split; [reflexivity|].
  unfold call.
  cbn [action_in in_tuple existsb String.eqb Ascii.eqb Bool.eqb orb].
  unfold mbind at 1. unfold lift at 1. cbn [chunks TYPING_GROUP_SIZE].
  unfold mbind at 1. rewrite ActionDispatcher.typing_loop.
  unfold mbind at 1.
  destruct (screenshot self w _) as [[shot|e] t]; reflexivity.
Qed.

(** The physical-to-agent direction has no bounds test. *)
Lemma scale_down_no_tool_error self x y m :
  scale_coordinates self COMPUTER x y <> Raise (ToolError m).
Proof.
  intros H. apply MapperExtras.scale_raise_cases in H.
  destruct H as [H | [H | (H & _)]]; discriminate.
Qed.

(** What [screenshot] does to the trace, and how it can fail. *)
Lemma screenshot_outcome self w tr :
  exists events,
    snd (screenshot self w tr) = (tr ++ events)%list /\
    events <> [] /\
    forall m, fst (screenshot self w tr) = Raise (ToolError m) ->
              m = Failed_to_take_screenshot (capture_stderr w) /\
              screenshot_file w = None.
Proof.
  unfold screenshot, shell, mbind, emit, ret, lift, raise.
  destruct (_scaling_enabled self).
  - destruct (scale_coordinates self COMPUTER _ _) as [xy|e] eqn:Es;
      destruct (screenshot_file w); cbn [fst snd error]; rewrite <- ?app_assoc;
      (eexists; split; [reflexivity|]; split; [discriminate|]);
      intros m [= E]; auto.
    all: exfalso; subst e; exact (scale_down_no_tool_error _ _ _ _ Es).
  - destruct (screenshot_file w); cbn [fst snd error]; rewrite <- ?app_assoc;
      (eexists; split; [reflexivity|]; split; [discriminate|]);
      intros m [= E]; auto.
Qed.

(** How each class of action can raise a [ToolError]: before anything is
    done, or, for [type] and [screenshot], as a failed screenshot. *)
Lemma tool_error_cases self w action text coordinate tr m tr' :
  call self w action text coordinate tr = (Raise (ToolError m), tr') ->
  (tr' = tr /\
   (forall a, m = Invalid_action a ->
      a = action /\
      action_in action ["mouse_move"; "left_click_drag"] = false /\
      action_in action ["key"; "type"] = false /\
      action_in action click_and_capture_actions = false)) \/
  (m = Failed_to_take_screenshot (capture_stderr w) /\
   screenshot_file w = None /\
   (action = "type" \/ action = "screenshot")).
Proof.
  intros H.
  assert (Validation : forall msg,
            (@Raise ToolResult (ToolError msg), tr) = (Raise (ToolError m), tr') ->
            (forall a, msg <> Invalid_action a) ->
            tr' = tr /\
            (forall a, m = Invalid_action a ->
               a = action /\
               action_in action ["mouse_move"; "left_click_drag"] = false /\
               action_in action ["key"; "type"] = false /\
               action_in action click_and_capture_actions = false)).
  { intros msg [= <- <-] Hmsg. split; [reflexivity|].
    intros a Ha. exfalso. exact (Hmsg a Ha). }
  assert (Refused : forall v msg,
            (lift (format v) ;; raise (ToolError msg)) tr
            = (@Raise ToolResult (ToolError m), tr') ->
            (forall a, msg <> Invalid_action a) ->
            tr' = tr /\
            (forall a, m = Invalid_action a ->
               a = action /\
               action_in action ["mouse_move"; "left_click_drag"] = false /\
               action_in action ["key"; "type"] = false /\
               action_in action click_and_capture_actions = false)).
  { intros v msg Hv Hmsg. unfold mbind, lift, raise in Hv.
    destruct (format_cases v) as [[_ E] | [_ E]]; rewrite E in Hv;
      [|discriminate Hv].
    exact (Validation msg Hv Hmsg). }
  destruct (action_class action) as [Hc | [Hc | [Hc | [Hc | Hc]]]].
  - (* pointer motion *)
    assert (Hin : action_in action ["mouse_move"; "left_click_drag"] = true)
      by (destruct Hc as [-> | ->]; reflexivity).
    left. unfold call in H. rewrite Hin in H.
    destruct text as [txt|].
    { destruct coordinate as [ | b | n | f | s | items | items ];
        try (apply (Validation _ H); discriminate).
      destruct items as [|? [|? [|? ?]]];
        (apply (Validation _ H); discriminate). }
    destruct coordinate as [ | b | n | f | s | items | items ];
      try (apply (Validation _ H); discriminate);
      try (apply (Refused _ _ H); discriminate).
    destruct items as [|c0 [|c1 [|c2 rest]]];
      try (apply (Refused _ _ H); discriminate).
    destruct (negb (forallb _ _)).
    { apply (Refused _ _ H); discriminate. }
    unfold mbind at 1 in H. unfold lift at 1 in H.
    destruct (scale_coordinates_of_values self API c0 c1) as [[x y]|e] eqn:Es.
    + exfalso. cbn [fst snd] in H. unfold mbind, lift, emit, ret in H.
      destruct (String.eqb action "mouse_move");
        destruct (format_cases x) as [[_ Ex] | [_ Ex]]; rewrite Ex in H;
        try discriminate H;
        destruct (format_cases y) as [[_ Ey] | [_ Ey]]; rewrite Ey in H;
        discriminate H.
    + injection H as -> <-.
      apply MapperExtras.scale_on_raise_cases in Es.
      destruct Es as [Es | [Es | (_ & _ & [(Es & _) | (Es & _)])]];
        try discriminate Es.
      injection Es as ->. split; [reflexivity|]. intros a Ha. discriminate Ha.
  - (* key *)
    subst action. left.
    destruct text as [txt|]; [|(apply (Validation _ H); discriminate)].
    destruct coordinate;
      try ((apply (Validation _ H); discriminate)).
    destruct (key_outcome self w txt tr) as [k [E | E]];
      rewrite E in H; discriminate H.
  - (* type *)
    subst action.
    destruct text as [txt|]; [|left; (apply (Validation _ H); discriminate)].
    destruct coordinate;
      try (left; (apply (Validation _ H); discriminate)).
    right.
    destruct (call_type_eq self w txt tr) as (pieces & _ & E). rewrite E in H.
    destruct (screenshot_outcome self w
                (tr ++ map (fun chunk => write chunk typing_interval) pieces)%list)
      as (events & _ & _ & Hm).
    destruct (screenshot self w _) as [[shot|e] t]; [discriminate H|].
    injection H as -> <-. destruct (Hm m eq_refl) as [-> Hf]. auto.
  - (* clicks and capture *)
    assert (H3 : action_in action ["mouse_move"; "left_click_drag"] = false /\
                 action_in action ["key"; "type"] = false /\
                 action_in action click_and_capture_actions = true).
    { simpl in Hc. repeat (destruct Hc as [<- | Hc]; [repeat split|]).
      contradiction. }
    destruct H3 as (H1 & H2 & H3). unfold click_and_capture_actions in H3.
    unfold call in H. rewrite H1, H2, H3 in H. unfold raise in H.
    destruct text as [txt|]; [left; (apply (Validation _ H); discriminate)|].
    destruct coordinate;
      try (left; (apply (Validation _ H); discriminate)).
    destruct (String.eqb_spec action "screenshot") as [-> | Hns].
    { right.
      destruct (screenshot_outcome self w tr) as (events & _ & _ & Hm).
      destruct (screenshot self w tr) as [[shot|e] t]; [discriminate H|].
      injection H as -> <-. destruct (Hm m eq_refl) as [-> Hf]. auto. }
    destruct (String.eqb action "cursor_position").
    { unfold mbind, lift, ret in H. exfalso.
      destruct (scale_coordinates self COMPUTER _ _) as [xy|e] eqn:Es.
      - destruct (str_int_cases (fst xy)) as [[_ E1] | [_ E1]];
          rewrite E1 in H; [|discriminate H].
        destruct (str_int_cases (snd xy)) as [[_ E2] | [_ E2]];
          rewrite E2 in H; discriminate H.
      - injection H as -> <-.
        exact (scale_down_no_tool_error _ _ _ _ Es). }
    unfold mbind, emit, ret in H.
    destruct (String.eqb action "left_click"); [discriminate H|].
    destruct (String.eqb action "right_click"); [discriminate H|].
    destruct (String.eqb action "middle_click"); discriminate H.
  - (* game control and the rest *)
    destruct Hc as (H1 & H2 & H3). pose proof H3 as H3'.
    unfold click_and_capture_actions in H3.
    unfold call in H. rewrite H1, H2, H3 in H. left.
    unfold mbind, emit, ret, raise in H.
    destruct (String.eqb action "left_down"); [discriminate H|].
    destruct (String.eqb action "left_up"); [discriminate H|].
    destruct (prefix "hold_arrow_" action); [discriminate H|].
    destruct (prefix "release_arrow_" action); [discriminate H|].
    injection H as <- <-. split; [reflexivity|].
    intros a [= <-]. auto.
Qed.

(** X11: a [ToolError] other than a failed screenshot is raised before
    anything is done: the trace of calls is unchanged. *)
Theorem validation_errors_have_no_effect self w action text coordinate tr m tr' :
  call self w action text coordinate tr = (Raise (ToolError m), tr') ->
  (forall err, m <> Failed_to_take_screenshot err) ->
  tr' = tr.
Proof.
  intros H Hm. destruct (tool_error_cases _ _ _ _ _ _ _ _ H) as [[E _] | (E & _)].
  - exact E.
  - exfalso. exact (Hm _ E).
Qed.

(** X12: no name of the declared vocabulary is refused as an invalid
    action, and every other name that does not start with
    [hold_arrow_] or [release_arrow_] is refused as one, with any text
    and coordinate, before anything is done. *)
Theorem invalid_action_exactly_for_unknown_names self w action text coordinate tr :
  (In action Action ->
   forall a tr', call self w action text coordinate tr
                 <> (Raise (ToolError (Invalid_action a)), tr')) /\
  (~ In action literal_actions ->
   (forall suffix, action <> "hold_arrow_" ++ suffix) ->
   (forall suffix, action <> "release_arrow_" ++ suffix) ->
   call self w action text coordinate tr
   = (Raise (ToolError (Invalid_action action)), tr)).
Proof.
  split.
  - intros Hin a tr' H.
    assert (Hcases : In action literal_actions \/ In action game_control_actions).
    { simpl in Hin. simpl. intuition. }
    destruct (tool_error_cases _ _ _ _ _ _ _ _ H) as [[_ Hinv] | (E & _)];
      [|discriminate E].
    destruct (Hinv a eq_refl) as (_ & H1 & H2 & H3).
    destruct Hcases as [Hl | Hg].
    + destruct (ActionDispatcher.game_control_never_validates
                  self w action text coordinate tr) as [e He].
      * simpl in Hl. simpl.
        repeat (destruct Hl as [<- | Hl]; [try discriminate H1;
                                           try discriminate H2;
                                           try discriminate H3; auto|]).
        contradiction.
      * rewrite He in H. discriminate H.
    + destruct (ActionDispatcher.game_control_never_validates
                  self w action text coordinate tr Hg) as [e He].
      rewrite He in H. discriminate H.
  - intros Hlit Hhold Hrel.
    assert (T : forall names, (forall n, In n names -> In n literal_actions) ->
                              action_in action names = false).
    { intros names Hsub. destruct (action_in action names) eqn:E; [|reflexivity].
      apply in_tuple_true in E. exfalso. apply Hlit, Hsub, E. }
    unfold call.
    rewrite (T ["mouse_move"; "left_click_drag"]) by (simpl; intuition).
    rewrite (T ["key"; "type"]) by (simpl; intuition).
    rewrite (T ["left_click"; "right_click"; "double_click"; "middle_click";
                "screenshot"; "cursor_position"]) by (simpl; intuition).
    destruct (String.eqb_spec action "left_down") as [-> | _].
    { exfalso. apply Hlit. simpl. intuition. }
    destruct (String.eqb_spec action "left_up") as [-> | _].
    { exfalso. apply Hlit. simpl. intuition. }
    destruct (prefix "hold_arrow_" action) eqn:P1.
    { destruct (ActionDispatcher.prefix_inv _ _ P1) as [post E].
      exfalso. exact (Hhold post E). }
    destruct (prefix "release_arrow_" action) eqn:P2.
    { destruct (ActionDispatcher.prefix_inv _ _ P2) as [post E].
      exfalso. exact (Hrel post E). }
    reflexivity.
Qed.

Ltac quiet :=
  solve [ exists []; rewrite app_nil_r; repeat split; simpl; lia
        | eexists; split; [reflexivity | split; [reflexivity | simpl; lia]] ].

Ltac refused :=
  unfold mbind, lift, raise; destruct (format _); quiet.

(** X13: only [type] and [screenshot] run shell commands: every other
    action adds at most three calls to the trace, none of them a shell
    command. *)
Theorem only_type_and_screenshot_run_commands self w action text coordinate tr :
  action <> "type" -> action <> "screenshot" ->
  exists events,
    snd (call self w action text coordinate tr) = (tr ++ events)%list /\
    forallb (fun e => negb (is_shell e)) events = true /\
    (List.length events <= 3)%nat.
Proof.
  intros Hnt Hns.
  destruct (action_class action) as [Hc | [Hc | [Hc | [Hc | Hc]]]].
  - assert (Hin : action_in action ["mouse_move"; "left_click_drag"] = true)
      by (destruct Hc as [-> | ->]; reflexivity).
    unfold call. rewrite Hin.
    destruct text as [txt|].
    { unfold raise.
      destruct coordinate as [ | b | n | f | s | items | items ]; try quiet.
      destruct items as [|? [|? [|? ?]]]; quiet. }
    destruct coordinate as [ | b | n | f | s | items | items ];
      try (unfold raise; quiet); try refused.
    destruct items as [|c0 [|c1 [|c2 rest]]]; try refused.
    destruct (negb (forallb _ _)); [refused|].
    unfold mbind, lift, emit, ret.
    destruct (scale_coordinates_of_values self API c0 c1) as [[x y]|e];
      [|quiet].
    cbn [fst snd].
    destruct (String.eqb action "mouse_move");
      (destruct (format x); [destruct (format y)|]; quiet).
  - subst action.
    destruct text as [txt|]; [|quiet].
    destruct coordinate; try quiet.
    destruct (key_outcome self w txt tr) as [k [E | E]]; rewrite E; quiet.
  - contradiction.
  - assert (H3 : action_in action ["mouse_move"; "left_click_drag"] = false /\
                 action_in action ["key"; "type"] = false /\
                 action_in action click_and_capture_actions = true).
    { simpl in Hc. repeat (destruct Hc as [<- | Hc]; [repeat split|]).
      contradiction. }
    destruct H3 as (H1 & H2 & H3). unfold click_and_capture_actions in H3.
    unfold call. rewrite H1, H2, H3. unfold raise.
    destruct text as [txt|]; [quiet|].
    destruct coordinate; try quiet.
    destruct (String.eqb_spec action "screenshot") as [-> | _]; [contradiction|].
    unfold mbind, lift, emit, ret.
    destruct (String.eqb action "cursor_position").
    { destruct (scale_coordinates self COMPUTER _ _) as [xy|e]; [|quiet].
      destruct (str_int (fst xy)); [destruct (str_int (snd xy))|]; quiet. }
    destruct (String.eqb action "left_click"); [quiet|].
    destruct (String.eqb action "right_click"); [quiet|].
    destruct (String.eqb action "middle_click"); quiet.
  - destruct Hc as (H1 & H2 & H3). unfold click_and_capture_actions in H3.
    unfold call. rewrite H1, H2, H3.
    unfold mbind, emit, ret, raise.
    destruct (String.eqb action "left_down"); [quiet|].
    destruct (String.eqb action "left_up"); [quiet|].
    destruct (prefix "hold_arrow_" action); [quiet|].
    destruct (prefix "release_arrow_" action); quiet.
Qed.

(** *** Letter case and the branches of [key] *)

Lemma lower_char_dash c :
  Ascii.eqb (lower_char c) "-" = Ascii.eqb c "-".
Proof. destruct c as [[] [] [] [] [] [] [] []]; reflexivity. Qed.

(** Lower-casing commutes with cutting at the first dash. *)
Lemma lower_split_first text :
  lower (split_first "-" text) = split_first "-" (lower text).
Proof.
  induction text as [|c text IH]; [reflexivity|].
  cbn [lower split_first]. rewrite lower_char_dash.
  destruct (Ascii.eqb c "-"); [reflexivity|].
  cbn [lower]. now rewrite IH.
Qed.

Lemma lower_char_digit c :
  In c (list_ascii_of_string "1234567890") -> lower_char c = c.
Proof.
  simpl. intros H.
  repeat (destruct H as [<- | H]; [reflexivity|]). contradiction.
Qed.

Lemma list_ascii_app a b :
  list_ascii_of_string (a ++ b)
  = (list_ascii_of_string a ++ list_ascii_of_string b)%list.
Proof. induction a as [|c a IH]; simpl; [reflexivity | now rewrite IH]. Qed.

Lemma lower_fixed text :
  (forall c, In c (list_ascii_of_string text) -> lower_char c = c) ->
  lower text = text.
Proof.
  induction text as [|c text IH]; intros H; [reflexivity|].
  cbn [lower]. rewrite (H c) by (now left). f_equal.
  apply IH. intros c' Hc'. apply H. now right.
Qed.

(** A text found inside the digits is its own lower-casing. *)
Lemma digits_lower text : str_in text "1234567890" = true -> lower text = text.
Proof.
  intros H. destruct (ActionDispatcher.str_in_inv _ _ H) as (pre & post & E).
  apply lower_fixed. intros c Hc. apply lower_char_digit.
  rewrite E, !list_ascii_app. apply in_or_app. right.
  apply in_or_app. now left.
Qed.

(** X14: a directional token in any letter case, with or without
    [-arrow], presses the arrow key it names: right, left, up or down. *)
Theorem direction_tokens_press_arrow self w text tr :
  In (lower text) direction_tokens ->
  call self w "key" (Some text) None_ tr
  = (Ok (result_of (Pressed_key text)),
     (tr ++ [press (split_first "-" (lower text))])%list) /\
  In (split_first "-" (lower text)) ["right"; "left"; "up"; "down"].
Proof.
  intros Hin.
  assert (Hd : str_in text "1234567890" = false).
  { destruct (str_in text "1234567890") eqn:E; [|reflexivity].
    rewrite (digits_lower _ E) in Hin. simpl in Hin.
    repeat (destruct Hin as [<- | Hin]; [discriminate E|]). contradiction. }
  unfold call.
  cbn [action_in in_tuple existsb String.eqb Ascii.eqb Bool.eqb orb].
  rewrite Hd, lower_split_first.
  simpl in Hin.
  repeat (destruct Hin as [<- | Hin];
          [split; [unfold mbind, emit, ret; reflexivity | simpl; auto 6]|]).
  contradiction.
Qed.

(** *** Screenshot *)

(** X15: [screenshot] resizes to the configured size, captures, and, with
    scaling on, resizes to the size [options] advertises; it returns the
    image with the output of the capture command when the file exists
    and raises [Failed to take screenshot] with the captured stderr when
    it does not.  When the size mapping raises, the exception leaves
    after the capture. *)
Theorem screenshot_resizes_to_advertised_size self w tr :
  let captured :=
    (tr ++ [run (convert_resize (self_width self) (self_height self));
            run (screencapture (display_num self))])%list in
  let outcome :=
    match screenshot_file w with
    | Some png => Ok {| output := Some (stdout (capture_stdout w));
                        error := Some (capture_stderr w);
                        base64_image := Some png |}
    | None => Raise (ToolError (Failed_to_take_screenshot (capture_stderr w)))
    end in
  (_scaling_enabled self = false ->
   screenshot self w tr = (outcome, captured)) /\
  (_scaling_enabled self = true ->
   forall o, options self = Ok o ->
   screenshot self w tr
   = (outcome,
      (captured ++ [run (convert_resize (display_width_px o)
                                        (display_height_px o))])%list)) /\
  (_scaling_enabled self = true ->
   forall e, options self = Raise e ->
   screenshot self w tr = (Raise e, captured)).
Proof.
  intros captured outcome. unfold captured, outcome, options, screenshot.
  unfold shell, mbind, emit, ret, lift, raise.
  split; [|split].
  - intros ->. rewrite <- !app_assoc. destruct (screenshot_file w); reflexivity.
  - intros -> o.
    destruct (scale_coordinates self COMPUTER _ _) as [[x y]|e];
      [|discriminate].
    cbn [bind]. intros [= <-]. cbn [fst snd display_width_px display_height_px].
    rewrite <- !app_assoc. destruct (screenshot_file w); reflexivity.
  - intros -> e.
    destruct (scale_coordinates self COMPUTER _ _) as [[x y]|e'];
      [discriminate|].
    cbn [bind]. intros [= <-]. rewrite <- !app_assoc. reflexivity.
Qed.

(** X16: with a target selected and a configured width of at most 2^48,
    [cursor_position] reports a pointer that is on the configured screen
    at a point of the advertised rectangle, and does nothing else. *)
Theorem cursor_position_reports_advertised_point self w t tr :
  selected self t ->
  (self_width self <= 2 ^ 48)%Z ->
  (0 <= fst (position w) <= self_width self)%Z ->
  (0 <= snd (position w) <= self_height self)%Z ->
  exists x y,
    call self w "cursor_position" None None_ tr
    = (Ok (result_of (X_Y x y)), tr) /\
    scale_coordinates self COMPUTER (fst (position w)) (snd (position w))
    = Ok (x, y) /\
    (0 <= x <= width t)%Z /\ (0 <= y <= height t)%Z.
Proof.
  intros Hsel HW Hx Hy.
  destruct (MapperExtras.scale_down_range self t _ _ Hsel HW Hx Hy)
    as (x & y & E & Bx & By).
  exists x, y. split; [|auto].
  destruct (TargetFacts.selected_shape _ _ (proj2 Hsel)) as (Hin & _).
  assert (Htab : (width t <= 2000)%Z /\ (height t <= 2000)%Z).
  { destruct (TargetFacts.table_entries t Hin) as [-> | [-> | ->]];
      simpl; lia. }
  assert (Px : printable x) by (apply printable_in_float_range; lia).
  assert (Py : printable y) by (apply printable_in_float_range; lia).
  unfold call.
  cbn [action_in in_tuple existsb String.eqb Ascii.eqb Bool.eqb orb].
  unfold mbind, lift, ret. rewrite E. cbn [fst snd].
  rewrite (str_int_printable _ Px), (str_int_printable _ Py). reflexivity.
Qed.

(** *** chunks *)

(** X17: [chunks] with a zero size raises [ValueError]; with a positive
    size [k] it returns the ceiling of [len(s) / k] pieces, none of them
    empty and none longer than [k], that concatenate to [s]: no piece
    for the empty string, and [s] itself when it fits in one piece. *)
Theorem chunks_count_and_edges s k :
  chunks s 0 = Raise ValueError /\
  ((0 < k)%nat ->
   exists pieces,
     chunks s k = Ok pieces /\
     List.length pieces = ((String.length s + k - 1) / k)%nat /\
     join pieces = s /\
     Forall (fun p => (1 <= String.length p <= k)%nat) pieces /\
     (s = "" -> pieces = []) /\
     ((1 <= String.length s <= k)%nat -> pieces = [s])).
Proof.
  split; [reflexivity|]. intros Hk.
  destruct (ActionDispatcher.chunks_spec s k Hk) as (pieces & Ec & Ej & Hp).
  exists pieces. split; [exact Ec|].
  assert (Hlen : List.length pieces = ((String.length s + k - 1) / k)%nat).
  { unfold chunks, range0 in Ec. destruct k; [lia|].
    injection Ec as <-. now rewrite !length_map, length_seq. }
  split; [exact Hlen|]. split; [exact Ej|]. split; [|split].
  - apply Forall_forall. intros p Hin.
    destruct (In_nth _ _ "" Hin) as (j & Hj & <-).
    destruct (Hp j Hj) as (_ & H1 & _). exact H1.
  - intros ->. simpl in Hlen. rewrite Nat.div_small in Hlen by lia.
    now destruct pieces.
  - intros Hs.
    assert (H1 : List.length pieces = 1%nat).
    { rewrite Hlen.
      replace (String.length s + k - 1)%nat with (1 * k + (String.length s - 1))%nat by lia.
      rewrite Nat.div_add_l by lia. rewrite Nat.div_small by lia. lia. }
    destruct pieces as [|p [|? ?]]; try discriminate H1.
    unfold join in Ej. simpl in Ej. f_equal.
    rewrite <- Ej. clear. induction p; simpl; [reflexivity | now f_equal].
Qed.


(** *** The properties at concrete inputs *)

Lemma key_and_type_validate_witness :
  call hd1080 a_world "type" None None_ []
  = (Raise (ToolError (text_is_required_for "type")), []) /\
  call hd1080 a_world "key" (Some "w") (List [Int 1; Int 2]) []
  = (Raise (ToolError (coordinate_is_not_accepted_for "key")), []).
Proof.
  split.
  - destruct (key_and_type_validate hd1080 a_world "type" None None_ []
                (or_intror eq_refl) (or_introl eq_refl)) as [m E].
    pose proof E as E'. vm_compute in E'. injection E' as <-. exact E.
  - destruct (key_and_type_validate hd1080 a_world "key" (Some "w")
                (List [Int 1; Int 2]) [] (or_introl eq_refl)) as [m E].
    + right. discriminate.
    + pose proof E as E'. vm_compute in E'. injection E' as <-. exact E.
Defined.

Lemma click_and_capture_validate_witness :
  In "left_click" click_and_capture_actions /\
  call hd1080 a_world "left_click" None (List [Int 1; Int 2]) []
  = (Raise (ToolError (coordinate_is_not_accepted_for "left_click")), []).
Proof.
  assert (Hin : In "left_click" click_and_capture_actions) by (simpl; auto).
  split; [exact Hin|].
  destruct (click_and_capture_validate hd1080 a_world "left_click" None
              (List [Int 1; Int 2]) [] Hin) as [m E].
  - right. discriminate.
  - pose proof E as E'. vm_compute in E'. injection E' as <-. exact E.
Defined.

Lemma validation_errors_have_no_effect_witness :
  call hd1080 a_world "mouse_move" None (List [Int 1921; Int 540]) [click]
  = (Raise (ToolError (Coordinates_are_out_of_bounds (Int 1921) (Int 540))), [click]) /\
  [click] = [click].
Proof.
  assert (E : call hd1080 a_world "mouse_move" None (List [Int 1921; Int 540])
                [click]
              = (Raise (ToolError
                          (Coordinates_are_out_of_bounds (Int 1921) (Int 540))),
                 [click])) by (vm_compute; reflexivity).
  split; [exact E|].
  apply (validation_errors_have_no_effect hd1080 a_world "mouse_move" None
           (List [Int 1921; Int 540]) [click] _ [click] E).
  intros err. discriminate.
Defined.

Lemma invalid_action_witness :
  call hd1080 a_world "scroll" None None_ []
  = (Raise (ToolError (Invalid_action "scroll")), []) /\
  call hd1080 a_world "left_click_drag" None None_ []
  <> (Raise (ToolError (Invalid_action "left_click_drag")), []).
Proof.
  split.
  - apply (proj2 (invalid_action_exactly_for_unknown_names hd1080 a_world
                    "scroll" None None_ [])).
    + simpl. intuition discriminate.
    + intros suffix. discriminate.
    + intros suffix. discriminate.
  - apply (proj1 (invalid_action_exactly_for_unknown_names hd1080 a_world
                    "left_click_drag" None None_ [])).
    simpl. auto 6.
Defined.

Lemma only_type_and_screenshot_run_commands_witness :
  exists events,
    snd (call hd1080 a_world "double_click" None None_ [])
    = ([] ++ events)%list /\
    forallb (fun e => negb (is_shell e)) events = true /\
    (List.length events <= 3)%nat.
Proof.
  apply (only_type_and_screenshot_run_commands hd1080 a_world "double_click"
           None None_ []); discriminate.
Defined.

Lemma direction_tokens_press_arrow_witness :
  In (lower "Up-Arrow") direction_tokens /\
  call hd1080 a_world "key" (Some "Up-Arrow") None_ []
  = (Ok (result_of (Pressed_key "Up-Arrow")), [press "up"]).
Proof.
  assert (Hin : In (lower "Up-Arrow") direction_tokens) by (simpl; auto 6).
  split; [exact Hin|].
  apply (proj1 (direction_tokens_press_arrow hd1080 a_world "Up-Arrow" [] Hin)).
Defined.

Lemma screenshot_resizes_witness :
  screenshot hd1080 a_world []
  = (Ok {| output := Some (stdout ""); error := Some "";
           base64_image := Some "iVBORw0KGgo=" |},
     [run (convert_resize 1920 1080); run (screencapture (Some 1%Z));
      run (convert_resize 1366 768)]).
Proof.
  apply (proj1 (proj2 (screenshot_resizes_to_advertised_size hd1080 a_world []))
           eq_refl
           {| display_height_px := 768; display_width_px := 1366;
              display_number := Some 1%Z |}).
  vm_compute. reflexivity.
Defined.

Lemma cursor_position_witness :
  selected hd1080 fwxga /\
  call hd1080 a_world "cursor_position" None None_ []
  = (Ok (result_of (X_Y 683 384)), []).
Proof.
  split; [exact CoordinateMapper.hd1080_selects_fwxga|].
  assert (HW : (self_width hd1080 <= 2 ^ 48)%Z) by (vm_compute; discriminate).
  assert (Hx : (0 <= fst (position a_world) <= self_width hd1080)%Z)
    by (vm_compute; split; discriminate).
  assert (Hy : (0 <= snd (position a_world) <= self_height hd1080)%Z)
    by (vm_compute; split; discriminate).
  destruct (cursor_position_reports_advertised_point hd1080 a_world fwxga []
              CoordinateMapper.hd1080_selects_fwxga HW Hx Hy)
    as (x & y & E & Es & _).
  vm_compute in Es. injection Es as <- <-. exact E.
Defined.

Lemma chunks_count_and_edges_witness :
  chunks "abcdefg" 3 = Ok ["abc"; "def"; "g"] /\
  chunks "abc" 3 = Ok ["abc"] /\
  chunks "" 3 = Ok [] /\
  chunks "abc" 0 = Raise ValueError.
Proof.
  split; [|split; [|split]].
  - destruct (proj2 (chunks_count_and_edges "abcdefg" 3)) as (p & E & _);
      [lia|]. rewrite E. vm_compute in E. symmetry. exact E.
  - destruct (proj2 (chunks_count_and_edges "abc" 3)) as (p & E & _ & _ & _ & _ & H);
      [lia|]. rewrite E, H; [reflexivity | simpl; lia].
  - destruct (proj2 (chunks_count_and_edges "" 3)) as (p & E & _ & _ & _ & H & _);
      [lia|]. rewrite E, H; reflexivity.
  - apply (proj1 (chunks_count_and_edges "abc" 0)).
Defined.

End DispatcherExtras.

(** ** Construction *)

Module ConstructionFacts.
Import Binary64 Py Game Spec Construction.
Local Open Scope string_scope.

(** X18: a constructed tool has a non-zero width and height, the parsed
    display number and scaling on, so that selecting a target never
    divides by zero; and construction fails on the assertion whenever
    WIDTH or HEIGHT is unset, empty or zero and the two parse. *)
Theorem init_requires_nonzero_size int environ :
  (forall self, __init__ int environ = inr self ->
     self_width self <> 0%Z /\ self_height self <> 0%Z /\
     _scaling_enabled self = true /\
     int_getenv_or_0 int (environ "WIDTH") = Ok (self_width self) /\
     int_getenv_or_0 int (environ "HEIGHT") = Ok (self_height self) /\
     target_dimension self <> Raise ZeroDivisionError) /\
  (forall w h,
     int_getenv_or_0 int (environ "WIDTH") = Ok w ->
     int_getenv_or_0 int (environ "HEIGHT") = Ok h ->
     (w = 0%Z \/ h = 0%Z) ->
     __init__ int environ = inl AssertionError) /\
  (environ "WIDTH" = None \/ environ "WIDTH" = Some "" ->
   int_getenv_or_0 int (environ "WIDTH") = Ok 0%Z).
Proof.
  split; [|split].
  - intros self. unfold __init__.
    destruct (int_getenv_or_0 int (environ "WIDTH")) as [w|e]; [|discriminate].
    destruct (int_getenv_or_0 int (environ "HEIGHT")) as [h|e]; [|discriminate].
    destruct (Z.eqb_spec w 0); [discriminate|].
    destruct (Z.eqb_spec h 0); [discriminate|]. cbn [orb].
    assert (G : forall dn,
      let self := {| self_width := w; self_height := h; display_num := dn;
                     _scaling_enabled := true |} in
      self_width self <> 0%Z /\ self_height self <> 0%Z /\
      _scaling_enabled self = true /\
      Ok w = Ok (self_width self) /\ Ok h = Ok (self_height self) /\
      target_dimension self <> Raise ZeroDivisionError).
    { intros dn self'. repeat split; try assumption.
      intros E.
      destruct (MapperExtras.target_dimension_cases self')
        as [[o Ho] | [[_ Hz] | Ho]]; [congruence | contradiction | congruence]. }
    destruct (environ "DISPLAY_NUM") as [d|].
    + destruct (int d) as [dn|e]; [|discriminate].
      intros [= <-]. apply G.
    + intros [= <-]. apply G.
  - intros w h Ew Eh Hz. unfold __init__. rewrite Ew, Eh.
    destruct Hz as [-> | ->]; [reflexivity|].
    now rewrite orb_true_r.
  - intros [-> | ->]; reflexivity.
Qed.

Lemma init_requires_nonzero_size_witness :
  __init__ decimal hd_environ = inr hd1080 /\
  target_dimension hd1080 <> Raise ZeroDivisionError /\
  __init__ decimal no_height_environ = inl AssertionError.
Proof.
  assert (E : __init__ decimal hd_environ = inr hd1080) by reflexivity.
  split; [exact E|]. split.
  - apply (proj1 (init_requires_nonzero_size decimal hd_environ) hd1080 E).
  - apply (proj1 (proj2 (init_requires_nonzero_size decimal no_height_environ))
             1920%Z 0%Z); [reflexivity | reflexivity | now right].
Defined.

End ConstructionFacts.
